(** * jsonld-helper-ts: the JSON-LD reader

    A shallow embedding of [src/reader/JsonLDReader.ts] (the classes
    [JsonLDReader] and [Nothing]) and of [src/reader/utils/read.ts]
    (the key resolver), together with the properties of the reader that
    the specification states.

    Layout:
    - [Js]: the fragment of the ECMAScript semantics the reader relies on
      (values, [typeof], property access, [??], [String.prototype.split],
      exceptions as completions);
    - the key resolver of [utils/read.ts];
    - the methods of [JsonLDReader] and of its subclass [Nothing];
    - the properties. *)

From Stdlib Require Import ZArith List String Ascii Bool Lia Floats DecimalString.
Import ListNotations.
Local Open Scope string_scope.
Local Open Scope list_scope.
Set Warnings "-register-all".

(* ================================================================== *)
(** * The ECMAScript fragment *)
(* ================================================================== *)

Module Js.

(** Data values.  A number is an IEEE 754 binary64, as in the language.
    An array is the list of its elements (a hole reads as [JsUndefined]);
    an object is the list of its own enumerable string-keyed properties
    in the order in which [Object.keys] enumerates them, which for keys
    that are not array indices is the order of insertion.  Functions,
    symbols and objects with accessors or a prototype of their own are
    outside this model: the reader is fed the output of JSON-LD
    expansion, which is plain data. *)
Inductive JsValue : Type :=
| JsUndefined
| JsNull
| JsBoolean (b : bool)
| JsNumber (n : float)
| JsBigInt (z : Z)
| JsString (s : string)
| JsArray (elements : list JsValue)
| JsObject (properties : list (string * JsValue)).

(** Induction over values that reaches inside arrays and objects. *)
Section JsValue_nested_ind.
Variable P : JsValue -> Prop.
Hypothesis Hundef : P JsUndefined.
Hypothesis Hnull : P JsNull.
Hypothesis Hbool : forall b, P (JsBoolean b).
Hypothesis Hnum : forall n, P (JsNumber n).
Hypothesis Hbig : forall z, P (JsBigInt z).
Hypothesis Hstr : forall s, P (JsString s).
Hypothesis Harr : forall xs, Forall P xs -> P (JsArray xs).
Hypothesis Hobj : forall ps, Forall (fun p => P (snd p)) ps -> P (JsObject ps).

Fixpoint JsValue_nested_ind (v : JsValue) : P v :=
  match v with
  | JsUndefined => Hundef
  | JsNull => Hnull
  | JsBoolean b => Hbool b
  | JsNumber n => Hnum n
  | JsBigInt z => Hbig z
  | JsString s => Hstr s
  | JsArray xs =>
      Harr xs ((fix go (l : list JsValue) : Forall P l :=
                  match l with
                  | [] => Forall_nil P
                  | x :: l' => Forall_cons x (JsValue_nested_ind x) (go l')
                  end) xs)
  | JsObject ps =>
      Hobj ps ((fix go (l : list (string * JsValue))
                  : Forall (fun p => P (snd p)) l :=
                  match l with
                  | [] => Forall_nil _
                  | p :: l' =>
                      Forall_cons (P := fun p => P (snd p)) p
                                  (JsValue_nested_ind (snd p)) (go l')
                  end) ps)
  end.
End JsValue_nested_ind.

(** Thrown values.  The reader only ever constructs [new Error(message)];
    the runtime itself raises a [TypeError] on a property access on
    [null] or [undefined] and on a call of something that is not a
    function. *)
Inductive JsError : Type :=
| Error (message : string)
| TypeError.

(** The outcome of evaluating an expression or a call: a value, or an
    exception that unwinds to the nearest [catch]. *)
Inductive completion (A : Type) : Type :=
| Normal (a : A)
| Throw (e : JsError).
Arguments Normal {A} a.
Arguments Throw {A} e.

Definition bind {A B : Type} (c : completion A) (k : A -> completion B)
  : completion B :=
  match c with
  | Normal a => k a
  | Throw e => Throw e
  end.

(** [try { body } catch { handler }] *)
Definition try_catch {A : Type} (body : completion A) (handler : completion A)
  : completion A :=
  match body with
  | Normal a => Normal a
  | Throw _ => handler
  end.

(** [typeof v] *)
Definition typeof (v : JsValue) : string :=
  match v with
  | JsUndefined => "undefined"
  | JsNull => "object"
  | JsBoolean _ => "boolean"
  | JsNumber _ => "number"
  | JsBigInt _ => "bigint"
  | JsString _ => "string"
  | JsArray _ => "object"
  | JsObject _ => "object"
  end.

(** [xs.includes(x)] on an array of strings *)
Definition includes (xs : list string) (x : string) : bool :=
  existsb (String.eqb x) xs.

(** [v !== undefined] is [negb (is_undefined v)] *)
Definition is_undefined (v : JsValue) : bool :=
  match v with JsUndefined => true | _ => false end.

(** [null] or [undefined] *)
Definition is_nullish (v : JsValue) : bool :=
  match v with JsUndefined | JsNull => true | _ => false end.

(** [a ?? b] *)
Definition coalesce (a b : JsValue) : JsValue :=
  if is_nullish a then b else a.

(** Own properties of an object. *)
Definition Scope : Type := list (string * JsValue).

Fixpoint lookup (k : string) (scope : Scope) : option JsValue :=
  match scope with
  | [] => None
  | (k', v) :: rest => if String.eqb k k' then Some v else lookup k rest
  end.

(** [scope[k]] on an object: a missing property reads as [undefined].
    None of the names the reader looks up other than own keys
    (['@type'], ['@id'], ['@value'], ['length'], ['0']) is a property of
    [Object.prototype]. *)
Definition prop (scope : Scope) (k : string) : JsValue :=
  match lookup k scope with
  | Some v => v
  | None => JsUndefined
  end.

(** [Object.keys(scope)] *)
Definition keys (scope : Scope) : list string := map fst scope.

(** [xs[i]] on an array, for an integral [i] *)
Definition element (xs : list JsValue) (i : Z) : JsValue :=
  if (i <? 0)%Z then JsUndefined else nth (Z.to_nat i) xs JsUndefined.

(** [v[k]] for a string [k] that is not an array index, on a value that
    is neither [null] nor [undefined]: an own property of an object;
    arrays and primitives have no such property. *)
Definition member (v : JsValue) (k : string) : JsValue :=
  match v with
  | JsObject scope => prop scope k
  | _ => JsUndefined
  end.

(** [v[k]]: a [TypeError] on [null] and [undefined] *)
Definition get_member (v : JsValue) (k : string) : completion JsValue :=
  if is_nullish v then Throw TypeError else Normal (member v k).

(** [v?.[k]] *)
Definition opt_member (v : JsValue) (k : string) : JsValue :=
  if is_nullish v then JsUndefined else member v k.

(** [v[0]] on a value that is neither [null] nor [undefined] *)
Definition first (v : JsValue) : JsValue :=
  match v with
  | JsArray xs => element xs 0
  | JsObject scope => prop scope "0"
  | _ => JsUndefined
  end.

(** [v?.length === 1] on a value that is not a string (the reader
    returns a string before it asks for its length).  The length of an
    array is its number of elements; an object has a length only as an
    own property, which must then be the number [1]; [null] and
    [undefined] short-circuit to [undefined]; numbers, big integers and
    booleans have none. *)
Definition length_is_1 (v : JsValue) : bool :=
  match v with
  | JsArray xs => Nat.eqb (List.length xs) 1
  | JsObject scope =>
      match prop scope "length" with
      | JsNumber n => PrimFloat.eqb n 1%float
      | _ => false
      end
  | _ => false
  end.

(** [a === b] where [b] is a primitive: same type and same value, the
    numbers compared as IEEE 754 does ([NaN] differs from itself, the
    two zeros are equal).  An array or an object is never equal to a
    primitive. *)
Definition strict_equals (a b : JsValue) : bool :=
  match a, b with
  | JsUndefined, JsUndefined => true
  | JsNull, JsNull => true
  | JsBoolean x, JsBoolean y => Bool.eqb x y
  | JsNumber x, JsNumber y => PrimFloat.eqb x y
  | JsBigInt x, JsBigInt y => Z.eqb x y
  | JsString x, JsString y => String.eqb x y
  | _, _ => false
  end.

(** [error ?? fallback] for the optional [error] argument of the
    throwing methods *)
Definition or_error (error : option JsError) (fallback : JsError) : JsError :=
  match error with
  | Some e => e
  | None => fallback
  end.

(** White space that is one ASCII character: tab, line feed, vertical
    tab, form feed, carriage return and space. *)
Definition is_white_space (c : ascii) : bool :=
  let n := nat_of_ascii c in
  (Nat.leb 9 n && Nat.leb n 13) || Nat.eqb n 32.

Fixpoint blank (s : string) : bool :=
  match s with
  | EmptyString => true
  | String c rest => is_white_space c && blank rest
  end.

(** [Number(z)] for a big integer: the nearest binary64, ties to even. *)
Definition BigIntToNumber (z : Z) : float :=
  SF2Prim (binary_normalize prec emax z 0%Z false).

(** The two conversions between numbers and strings that the runtime
    supplies: [StrNumericLiteral s] is [Number(s)] for a string [s] that
    is not made of ASCII white space only, and [NumberToString n] is
    [String(n)]. *)
Class NumberConversions : Type := {
  StrNumericLiteral : string -> float;
  NumberToString : float -> string
}.

(** [s.split(sep)] for a separator of one character: the segments
    between the occurrences of [sep], at least one. *)
Fixpoint split (sep : ascii) (s : string) : list string :=
  match s with
  | EmptyString => [EmptyString]
  | String c rest =>
      if Ascii.eqb c sep then EmptyString :: split sep rest
      else match split sep rest with
           | [] => [String c EmptyString]
           | seg :: segs => String c seg :: segs
           end
  end.

(** The decimal digits of an integer, with its sign: [String(i)] for a
    big integer. *)
Definition Z_to_string (i : Z) : string :=
  NilZero.string_of_int (Z.to_int i).

(** The integer that the number nearest to [z] is (ties to even);
    [None] when that number is an infinity. *)
Definition nearest_number (z : Z) : option Z :=
  match binary_normalize prec emax z 0%Z false with
  | S754_zero _ => Some 0%Z
  | S754_finite sign m e => Some (Z.shiftl (if sign then Zneg m else Zpos m) e)
  | _ => None
  end.

(** The digits that [Number::toString] chooses for a positive integral
    number [x] of [n] decimal digits: the multiple of a power of ten
    with the fewest significant digits, [k] and up, of which [x] is the
    nearest number; of two such, the closer to [x], then the even one. *)
Fixpoint shortest_decimal (fuel k : nat) (x : Z) (n : nat) : Z :=
  match fuel with
  | O => x
  | S fuel' =>
      let u := (10 ^ Z.of_nat (n - k))%Z in
      let s := (x / u)%Z in
      let below := (s * u)%Z in
      let above := ((s + 1) * u)%Z in
      let hits c := match nearest_number c with
                    | Some y => Z.eqb y x
                    | None => false
                    end in
      match hits below, hits above with
      | true, true =>
          if (x - below <? above - x)%Z then below
          else if (above - x <? x - below)%Z then above
          else if Z.even s then below else above
      | true, false => below
      | false, true => above
      | false, false => shortest_decimal fuel' (S k) x n
      end
  end.

Fixpoint strip_zeros (rev_digits : list ascii) : list ascii :=
  match rev_digits with
  | "0"%char :: rest => strip_zeros rest
  | _ => rev_digits
  end.

(** [d.ddde+N] for the digits of an integer of more than 21 digits *)
Definition exponent_form (digits : string) : string :=
  let n := String.length digits in
  let significant :=
    string_of_list_ascii
      (rev (strip_zeros (rev (list_ascii_of_string digits)))) in
  let exponent := Z_to_string (Z.of_nat (n - 1)) in
  match significant with
  | String d EmptyString => String d ("e+" ++ exponent)
  | String d rest => String d ("." ++ rest ++ "e+" ++ exponent)
  | EmptyString => digits
  end.

Definition positive_number_text (x : Z) : string :=
  let n := String.length (Z_to_string x) in
  let digits := Z_to_string (shortest_decimal n 1 x n) in
  if Nat.leb (String.length digits) 21 then digits else exponent_form digits.

(** [String(x)], and the interpolation [`${x}`], for the number [x]
    nearest to the integer [z].  Up to [2 ^ 53] in magnitude every
    integer is a number and neighbours differ by one at least, so that
    the shortest digits are the decimal digits; beyond, the text is
    that of the number: ["18446744073709552000"] for [2 ^ 64],
    ["1e+21"] for [10 ^ 21], ["Infinity"] past the largest number. *)
Definition IntegerToString (z : Z) : string :=
  if (Z.abs z <=? 2 ^ 53)%Z then Z_to_string z
  else
    match nearest_number (Z.abs z) with
    | Some x => (if (z <? 0)%Z then "-" else "") ++ positive_number_text x
    | None => if (z <? 0)%Z then "-Infinity" else "Infinity"
    end.

End Js.
Import Js.

Declare Scope completion_scope.
Delimit Scope completion_scope with completion.
Notation "x <- c ;; k" := (bind c (fun x => k))
  (at level 61, c at next level, right associativity) : completion_scope.
Local Open Scope completion_scope.

(* ================================================================== *)
(** * The reader's two classes *)
(* ================================================================== *)

(** An instance of [JsonLDReader] proper holds a [value]; an instance of
    the subclass [Nothing] calls [super()] with no argument, so that its
    [value] is [undefined], and holds an [error]. *)
Inductive JsonLDReader : Type :=
| Present (value : JsValue)
| Nothing (error : JsError).

(** [reader.value] *)
Definition value (r : JsonLDReader) : JsValue :=
  match r with
  | Present v => v
  | Nothing _ => JsUndefined
  end.

(** [reader.length]: [Array.isArray(value) ? value.length : 1] *)
Definition length (r : JsonLDReader) : nat :=
  match value r with
  | JsArray xs => List.length xs
  | _ => 1
  end.

(** [reader.error], a field of [Nothing] only *)
Definition error (r : JsonLDReader) : option JsError :=
  match r with
  | Present _ => None
  | Nothing e => Some e
  end.

(** [JsonLDReader.of(value)] *)
Definition JsonLDReader_of (value : JsValue) : JsonLDReader := Present value.


(* ================================================================== *)
(** * utils/read.ts *)
(* ================================================================== *)

(** The test [k.split('#')[1] === key] of the four [find] callbacks. *)
Definition hash_segment_is (key : string) (k : string) : bool :=
  match nth_error (split "#" k) 1 with
  | Some seg => String.eqb seg key
  | None => false
  end.

(** The callback of the second [find] of [getFullKey]:
    [split[split.length - 1] === key] for [split = k.split('/')]. *)
Definition slash_segment_is (key : string) (k : string) : bool :=
  let split := split "/" k in
  String.eqb (last split EmptyString) key.

(** [extractType] on a value that is not an array. *)
Definition extractType_scalar (value : JsValue) : completion JsValue :=
  match value with
  | JsObject scope => Normal (prop scope "@value")
  | JsNull => Throw TypeError
  | JsString s =>
      let hashSplit := split "#" s in
      if Nat.eqb (List.length hashSplit) 2 then
        Normal (JsString (nth 1 hashSplit EmptyString))
      else
        let slashSplit := split "/" s in
        if Nat.eqb (List.length slashSplit) 1 then Normal (JsString s)
        else Normal (JsString (last slashSplit EmptyString))
  | _ => Throw TypeError
  end.

Fixpoint extractType (value : JsValue) : completion JsValue :=
  match value with
  | JsArray [] => extractType_scalar JsUndefined
  | JsArray (x :: _) => extractType x
  | _ => extractType_scalar value
  end.

Definition readType (scope : Scope) : completion (JsValue * bool) :=
  let value := prop scope "@type" in
  if negb (is_undefined value) then
    t <- extractType value ;; Normal (t, true)
  else
    match find (hash_segment_is "type") (keys scope) with
    | Some key => t <- extractType (prop scope key) ;; Normal (t, true)
    | None => Normal (JsString "", false)
    end.

Definition readId (scope : Scope) : JsValue * bool :=
  let value := prop scope "@id" in
  if negb (is_undefined value) then (value, true)
  else
    match find (hash_segment_is "id") (keys scope) with
    | Some key => (prop scope key, true)
    | None => (JsString "", false)
    end.

Definition readValue (scope : Scope) : JsValue * bool :=
  let value := prop scope "@value" in
  if negb (is_undefined value) then (value, true)
  else
    match find (hash_segment_is "value") (keys scope) with
    | Some key => (prop scope key, true)
    | None => (JsString "", false)
    end.

Definition readAsPreDefinedKey (scope : Scope) (key : string)
  : completion (JsValue * bool) :=
  t <- (if includes ["type"; "@type"] key then readType scope
        else Normal (JsString "", false)) ;;
  if snd t then Normal t
  else
    let i := if includes ["id"; "@id"] key then readId scope
             else (JsString "", false) in
    if snd i then Normal i
    else
      let v := if includes ["value"; "@value"] key then readValue scope
               else (JsString "", false) in
      if snd v then Normal v
      else Normal (JsString "", false).

Definition getFullKey (scope : Scope) (key : string) : option string :=
  match find (hash_segment_is key) (keys scope) with
  | Some fullKey => Some fullKey
  | None => find (slash_segment_is key) (keys scope)
  end.

Definition readAsObject (scope : Scope) (key : string)
  : completion JsonLDReader :=
  r <- readAsPreDefinedKey scope key ;;
  let '(value, isPreDefined) := r in
  if isPreDefined then Normal (JsonLDReader_of value)
  else
    match getFullKey scope key with
    | None => Normal (Nothing (Error ("Not found key: " ++ key)))
    | Some fullKey =>
        if String.eqb key "type" then
          t <- extractType (prop scope fullKey) ;; Normal (JsonLDReader_of t)
        else Normal (JsonLDReader_of (prop scope fullKey))
    end.

Definition readAsArray (scope : list JsValue) (index : Z) : JsonLDReader :=
  let value := element scope index in
  if negb (is_undefined value) then JsonLDReader_of value
  else Nothing (Error ("Not found index: " ++ IntegerToString index)).

(** [read] once [jsonld] is known not to be an array.  The cast
    [jsonld as Scope] lets [null] through, whose first property access
    (or [Object.keys]) raises. *)
Definition read_object (jsonld : JsValue) (index : option Z)
           (key : option string) : completion JsonLDReader :=
  match index with
  | Some _ => Normal (Nothing (Error "Not an array"))
  | None =>
      if negb (String.eqb (typeof jsonld) "object") then
        Normal (Nothing (Error "Not an object"))
      else
        match key with
        | None => Normal (Nothing (Error "key or index is required"))
        | Some key =>
            match jsonld with
            | JsObject scope => readAsObject scope key
            | _ => Throw TypeError
            end
        end
  end.

Fixpoint read (jsonld : JsValue) (index : option Z) (key : option string)
  : completion JsonLDReader :=
  match jsonld with
  | JsArray xs =>
      match index with
      | Some index => Normal (readAsArray xs index)
      | None =>
          if Nat.ltb 2 (List.length xs) then
            Normal (Nothing (Error "Not an object"))
          else
            match xs with
            | [] => read_object JsUndefined None key
            | x :: _ => read x None key
            end
      end
  | _ => read_object jsonld index key
  end.

(* ================================================================== *)
(** * JsonLDReader.ts *)
(* ================================================================== *)

(** The argument of [read]: [keyOrIndex: string | number], the number
    being an integral one (a position in a sequence): [Index z] is the
    number nearest to [z], which is [z] up to [2 ^ 53] in magnitude. *)
Inductive KeyOrIndex : Type :=
| Key (key : string)
| Index (index : Z).

(** The private [getValue], on [this.value]. *)
Definition getValue (this_value : JsValue) : completion JsValue :=
  if includes ["string"; "number"; "bigint"; "boolean"] (typeof this_value)
  then Normal this_value
  else if length_is_1 this_value then
    let scope := first this_value in
    Normal (coalesce (opt_member scope "@value")
                     (coalesce (opt_member scope "@id") scope))
  else
    v <- get_member this_value "@value" ;;
    if is_nullish v then
      i <- get_member this_value "@id" ;;
      Normal (coalesce i this_value)
    else Normal v.

(** [strict]: inherited unchanged by [Nothing]. *)
Definition strict (this : JsonLDReader) : JsonLDReader :=
  JsonLDReader_of (value this).

(** The method [read]; [Nothing] overrides it to return [this]. *)
Definition reader_read (this : JsonLDReader) (keyOrIndex : KeyOrIndex)
  : completion JsonLDReader :=
  match this with
  | Present v =>
      read v
           (match keyOrIndex with Index i => Some i | Key _ => None end)
           (match keyOrIndex with Key k => Some k | Index _ => None end)
  | Nothing _ => Normal this
  end.

Definition get (this : JsonLDReader) : completion JsValue :=
  match this with
  | Present v => getValue v
  | Nothing _ => Normal JsNull
  end.

Definition getOrThrow (this : JsonLDReader) (error : option JsError)
  : completion JsValue :=
  match this with
  | Present v => getValue v
  | Nothing e => Throw (or_error error e)
  end.

Definition getOrElse (this : JsonLDReader) (defaultValue : JsValue)
  : completion JsValue :=
  match this with
  | Present v => getValue v
  | Nothing _ => Normal defaultValue
  end.

Definition booleanOrThrow (this : JsonLDReader) (error : option JsError)
  : completion bool :=
  match this with
  | Present v =>
      value <- getValue v ;;
      match value with
      | JsBoolean b => Normal b
      | _ =>
          if strict_equals value (JsString "true")
             || strict_equals value (JsString "false")
             || strict_equals value (JsString "0")
             || strict_equals value (JsString "1")
          then Normal (strict_equals value (JsString "true")
                       || strict_equals value (JsString "1"))
          else if strict_equals value (JsNumber 0%float)
                  || strict_equals value (JsNumber 1%float)
          then Normal (strict_equals value (JsNumber 1%float))
          else Throw (or_error error (Error "Not a boolean"))
      end
  | Nothing e => Throw (or_error error e)
  end.

Definition booleanOrElse (this : JsonLDReader) (defaultValue : bool)
  : completion bool :=
  match this with
  | Present _ => try_catch (booleanOrThrow this None) (Normal defaultValue)
  | Nothing _ => Normal defaultValue
  end.

Section Conversions.
Context {conv : NumberConversions}.

(** [Number(s)] on a string *)
Definition StringToNumber (s : string) : float :=
  if blank s then 0%float else StrNumericLiteral s.

(** [String(v)].  An array joins the strings of its elements with
    commas, [null] and [undefined] elements giving the empty string;
    an object gives ["[object Object]"] through the [toString] of
    [Object.prototype], unless an own property shadows that method
    with data, which nothing can call. *)
Fixpoint ToString (v : JsValue) : completion string :=
  match v with
  | JsUndefined => Normal "undefined"
  | JsNull => Normal "null"
  | JsBoolean b => Normal (if b then "true" else "false")
  | JsNumber n => Normal (NumberToString n)
  | JsBigInt z => Normal (Z_to_string z)
  | JsString s => Normal s
  | JsArray xs =>
      (fix join (l : list JsValue) : completion string :=
         match l with
         | [] => Normal ""
         | x :: rest =>
             s <- (if is_nullish x then Normal "" else ToString x) ;;
             match rest with
             | [] => Normal s
             | _ => r <- join rest ;; Normal (s ++ "," ++ r)%string
             end
         end) xs
  | JsObject scope =>
      match lookup "toString" scope with
      | Some _ => Throw TypeError
      | None => Normal "[object Object]"
      end
  end.

(** [Number(v)] *)
Definition ToNumber (v : JsValue) : completion float :=
  match v with
  | JsUndefined => Normal nan
  | JsNull => Normal 0%float
  | JsBoolean b => Normal (if b then 1%float else 0%float)
  | JsNumber n => Normal n
  | JsBigInt z => Normal (BigIntToNumber z)
  | JsString s => Normal (StringToNumber s)
  | JsArray _ | JsObject _ => s <- ToString v ;; Normal (StringToNumber s)
  end.

Definition stringOrThrow (this : JsonLDReader) (error : option JsError)
  : completion string :=
  match this with
  | Present v =>
      value <- getValue v ;;
      if includes ["string"; "number"; "bigint"; "boolean"] (typeof value)
      then ToString value
      else Throw (or_error error (Error "Not a string"))
  | Nothing e => Throw (or_error error e)
  end.

Definition stringOrElse (this : JsonLDReader) (defaultValue : string)
  : completion string :=
  match this with
  | Present _ => try_catch (stringOrThrow this None) (Normal defaultValue)
  | Nothing _ => Normal defaultValue
  end.

Definition numberOrThrow (this : JsonLDReader) (error : option JsError)
  : completion float :=
  match this with
  | Present v =>
      value <- getValue v ;;
      match value with
      | JsNumber n => Normal n
      | _ =>
          numberValue <- ToNumber value ;;
          if is_nan numberValue
          then Throw (or_error error (Error "Not a number"))
          else Normal numberValue
      end
  | Nothing e => Throw (or_error error e)
  end.

Definition numberOrElse (this : JsonLDReader) (defaultValue : float)
  : completion float :=
  match this with
  | Present _ => try_catch (numberOrThrow this None) (Normal defaultValue)
  | Nothing _ => Normal defaultValue
  end.
End Conversions.

(* ================================================================== *)
(** * utils/getValue.ts *)
(* ================================================================== *)

Module Utils.

(** The exported [getValue], which tells arrays from other objects
    before it asks for a length, and returns what is neither a
    primitive nor an object as it is. *)
Definition getValue (value : JsValue) : completion JsValue :=
  if includes ["string"; "number"; "bigint"; "boolean"] (typeof value)
  then Normal value
  else
    match value with
    | JsArray xs =>
        if Nat.eqb (List.length xs) 1 then
          let scope := element xs 0 in
          Normal (coalesce (opt_member scope "@value")
                           (coalesce (opt_member scope "@id") scope))
        else Normal value
    | _ =>
        if String.eqb (typeof value) "object" then
          v <- get_member value "@value" ;;
          if is_nullish v then
            i <- get_member value "@id" ;;
            Normal (coalesce i value)
          else Normal v
        else Normal value
    end.

End Utils.

(* ================================================================== *)
(** * The earlier JsonLDReader.ts *)
(* ================================================================== *)

Module Earlier.

(** [extractType] of the earlier version of the class, which knows
    sequences and strings only: on anything else [value.split] is not a
    function. *)
Definition extractType_scalar (value : JsValue) : completion JsValue :=
  match value with
  | JsString s =>
      let hashSplit := split "#" s in
      if Nat.eqb (List.length hashSplit) 2 then
        Normal (JsString (nth 1 hashSplit EmptyString))
      else
        let slashSplit := split "/" s in
        Normal (JsString (last slashSplit EmptyString))
  | _ => Throw TypeError
  end.

Fixpoint extractType (value : JsValue) : completion JsValue :=
  match value with
  | JsArray [] => extractType_scalar JsUndefined
  | JsArray (x :: _) => extractType x
  | _ => extractType_scalar value
  end.

End Earlier.

(* ================================================================== *)
(** * Vocabulary of the properties *)
(* ================================================================== *)

(** Number of occurrences of a character in a string. *)
Fixpoint count_char (c : ascii) (s : string) : nat :=
  match s with
  | EmptyString => 0
  | String c' rest => (if Ascii.eqb c' c then 1 else 0) + count_char c rest
  end.

(** [s] followed by the character [c] followed by [t] *)
Definition glue (s : string) (c : ascii) (t : string) : string :=
  (s ++ String c t)%string.

(** [seg] is the second of the segments into which the occurrences of
    [sep] cut [k]: the text between the first [sep] and the next one, or
    the end of [k]. *)
Definition second_segment (sep : ascii) (k seg : string) : Prop :=
  exists p r,
    k = glue p sep (seg ++ r) /\
    count_char sep p = 0 /\ count_char sep seg = 0 /\
    (r = EmptyString \/ exists r', r = String sep r').

(** [seg] is what follows the last [sep] of [k], which has one. *)
Definition after_last (sep : ascii) (k seg : string) : Prop :=
  count_char sep seg = 0 /\ exists p, k = glue p sep seg.

(** [seg] is the last of the segments into which [sep] cuts [k]: what
    follows the last [sep], or all of [k] when it has none. *)
Definition last_segment (sep : ascii) (k seg : string) : Prop :=
  count_char sep seg = 0 /\ (k = seg \/ exists p, k = glue p sep seg).

(** [k] is the first element of [l], in the order of [l], that
    satisfies [P]. *)
Definition first_such {A : Type} (P : A -> Prop) (l : list A) (k : A) : Prop :=
  exists before after,
    l = before ++ k :: after /\ P k /\ Forall (fun x => ~ P x) before.

(** No element of [l] satisfies [P]. *)
Definition none_such {A : Type} (P : A -> Prop) (l : list A) : Prop :=
  Forall (fun x => ~ P x) l.

(** The Reader that [readAsObject] builds once the generic path has
    settled on [fullKey]: the value under that key, reduced by
    [extractType] when the short key is ["type"]. *)
Definition resolved (scope : Scope) (key fullKey : string)
  : completion JsonLDReader :=
  if String.eqb key "type" then
    t <- extractType (prop scope fullKey) ;; Normal (Present t)
  else Normal (Present (prop scope fullKey)).

(** The node [scope] has a field [k] holding a value (one that is not
    [undefined]). *)
Definition holds (scope : Scope) (k : string) : Prop :=
  is_undefined (prop scope k) = false.

(** [new JsonLDReader(fragment).read(key).get()] *)
Definition read_get (fragment : JsValue) (key : string) : completion JsValue :=
  r <- reader_read (Present fragment) (Key key) ;; get r.

(** Fixtures. *)
Definition outbox_node : Scope :=
  [("@id", JsString "https://mastodon.social/users/juunini");
   ("https://www.w3.org/ns/activitystreams#outbox",
    JsArray [JsObject
      [("@id", JsString "https://mastodon.social/users/juunini/outbox")]])].

Definition name_node (name : string) : JsValue :=
  JsObject [("https://www.w3.org/ns/activitystreams#name",
             JsArray [JsObject [("@value", JsString name)]])].

Definition typed_node (iri : string) : JsValue :=
  JsArray [JsObject [("@type", JsArray [JsString iri])]].

(** The unwrapped values that [booleanOrThrow] reads as [true], and
    those that it reads as [false]; the number zero has two
    representations. *)
Definition reads_as_true (u : JsValue) : Prop :=
  u = JsBoolean true \/ u = JsString "true" \/ u = JsString "1" \/
  u = JsNumber 1%float.

Definition reads_as_false (u : JsValue) : Prop :=
  u = JsBoolean false \/ u = JsString "false" \/ u = JsString "0" \/
  u = JsNumber 0%float \/ u = JsNumber neg_zero.

(** A string, a number, a big integer or a boolean. *)
Definition is_primitive (v : JsValue) : bool :=
  match v with
  | JsString _ | JsNumber _ | JsBigInt _ | JsBoolean _ => true
  | _ => false
  end.

(** The unwrap rule in the words of the specification: a field counts as
    soon as the object has it. *)
Definition spec_object_unwrap (e : JsValue) : JsValue :=
  match e with
  | JsObject scope =>
      match lookup "@value" scope with
      | Some literal => literal
      | None =>
          match lookup "@id" scope with
          | Some id => id
          | None => e
          end
      end
  | _ => e
  end.

Definition spec_unwrap (fragment : JsValue) : JsValue :=
  if is_primitive fragment then fragment
  else match fragment with
       | JsArray [e] => spec_object_unwrap e
       | _ => spec_object_unwrap fragment
       end.

(** The unwrap rule as amended: a field counts when the object has it
    with a value that is neither [null] nor [undefined]. *)
Definition field (e : JsValue) (k : string) : option JsValue :=
  match e with
  | JsObject scope =>
      match lookup k scope with
      | Some v => if is_nullish v then None else Some v
      | None => None
      end
  | _ => None
  end.

Definition object_unwrap (e : JsValue) : JsValue :=
  match field e "@value" with
  | Some literal => literal
  | None =>
      match field e "@id" with
      | Some id => id
      | None => e
      end
  end.

Definition unwrap (fragment : JsValue) : JsValue :=
  if is_primitive fragment then fragment
  else match fragment with
       | JsArray [e] => object_unwrap e
       | _ => object_unwrap fragment
       end.

(** An expanded document whose [as:type] property refers to a node
    instead of holding a literal. *)
Definition typed_by_reference : JsValue :=
  JsArray [JsObject
    [("https://www.w3.org/ns/activitystreams#type",
      JsArray [JsObject
        [("@id", JsString "https://www.w3.org/ns/activitystreams#Person")]])]].

(** Data without [undefined], at any depth: what JSON can express, and
    what the expansion returns. *)
Fixpoint is_data (v : JsValue) : bool :=
  match v with
  | JsUndefined => false
  | JsArray xs => forallb is_data xs
  | JsObject scope => forallb (fun p => is_data (snd p)) scope
  | _ => true
  end.

(** [read('type')] or [read('@type')] *)
Definition is_type_key (m : KeyOrIndex) : bool :=
  match m with
  | Key k => includes ["type"; "@type"] k
  | Index _ => false
  end.




(** A stand-in for the runtime's two conversions that knows the decimal
    integers only: it reads a string of decimal digits and prints an
    integral number.  On anything else it answers [NaN] and ["NaN"],
    which is not what an engine does; it serves to evaluate the reader
    on concrete inputs that stay within the integers. *)
Fixpoint digits_value (s : string) (acc : Z) : option Z :=
  match s with
  | EmptyString => Some acc
  | String c rest =>
      let n := nat_of_ascii c in
      if Nat.leb 48 n && Nat.leb n 57
      then digits_value rest (10 * acc + Z.of_nat (n - 48))
      else None
  end.

Definition integral_value (n : float) : option Z :=
  match Prim2SF n with
  | S754_zero _ => Some 0%Z
  | S754_finite sign m e =>
      let z := if sign then Zneg m else Zpos m in
      if (0 <=? e)%Z then Some (z * 2 ^ e)%Z
      else if (Zpos m mod 2 ^ (- e) =? 0)%Z then Some (z / 2 ^ (- e))%Z
      else None
  | _ => None
  end.

Definition decimal_integers : NumberConversions :=
  {| StrNumericLiteral s :=
       match digits_value s 0 with
       | Some z => BigIntToNumber z
       | None => nan
       end;
     NumberToString n :=
       match integral_value n with
       | Some z => Z_to_string z
       | None => "NaN"
       end |}.

(** What a descent through first elements ends on: the value itself
    when it is not a sequence, [undefined] under an empty sequence. *)
Fixpoint first_leaf (v : JsValue) : JsValue :=
  match v with
  | JsArray [] => JsUndefined
  | JsArray (x :: _) => first_leaf x
  | _ => v
  end.

(** The same descent through sequences of at most two elements, which
    are those that a string key goes through; [None] when a longer one
    is in the way. *)
Fixpoint key_target (v : JsValue) : option JsValue :=
  match v with
  | JsArray xs =>
      if Nat.ltb 2 (List.length xs) then None
      else match xs with
           | [] => Some JsUndefined
           | x :: _ => key_target x
           end
  | _ => Some v
  end.

(** [v] occurs in [w]: it is [w], or occurs in an element or in a field
    of [w]. *)
Inductive subvalue (v : JsValue) : JsValue -> Prop :=
| sub_here : subvalue v v
| sub_element (x : JsValue) (xs : list JsValue) :
    In x xs -> subvalue v x -> subvalue v (JsArray xs)
| sub_field (k : string) (x : JsValue) (scope : Scope) :
    In (k, x) scope -> subvalue v x -> subvalue v (JsObject scope).

(** [p] is empty or ends with the character [c]. *)
Definition empty_or_ends_with (c : ascii) (p : string) : Prop :=
  p = EmptyString \/ exists q, p = (q ++ String c EmptyString)%string.

(** A chain of reads: [this.read(m1).read(m2)...]. *)
Fixpoint read_path (this : JsonLDReader) (path : list KeyOrIndex)
  : completion JsonLDReader :=
  match path with
  | [] => Normal this
  | m :: rest => r <- reader_read this m ;; read_path r rest
  end.

(** Data without [null] and without [undefined], at any depth. *)
Fixpoint is_plain (v : JsValue) : bool :=
  match v with
  | JsUndefined | JsNull => false
  | JsArray xs => forallb is_plain xs
  | JsObject scope => forallb (fun p => is_plain (snd p)) scope
  | _ => true
  end.

(* ================================================================== *)
(** * Strings and [split] *)
(* ================================================================== *)

Section Split.
Variable sep : ascii.

Lemma split_not_nil (s : string) : split sep s <> [].
Proof.
  destruct s as [|c rest]; simpl; [discriminate|].
  destruct (Ascii.eqb c sep); [discriminate|].
  destruct (split sep rest); discriminate.
Qed.

Lemma split_length (s : string) :
  List.length (split sep s) = S (count_char sep s).
Proof.
  induction s as [|c rest IH]; simpl; [reflexivity|].
  destruct (Ascii.eqb c sep) eqn:E; simpl.
  - now rewrite IH.
  - destruct (split sep rest) as [|seg segs] eqn:S.
    + now destruct (split_not_nil rest).
    + simpl in *. exact IH.
Qed.

Lemma split_no_sep (s : string) :
  count_char sep s = 0 -> split sep s = [s].
Proof.
  induction s as [|c rest IH]; simpl; [reflexivity|].
  destruct (Ascii.eqb c sep); simpl; [discriminate|].
  intros H. now rewrite (IH H).
Qed.

Lemma split_glue (p q : string) :
  count_char sep p = 0 -> split sep (glue p sep q) = p :: split sep q.
Proof.
  unfold glue. induction p as [|c rest IH]; simpl.
  - intros _. now rewrite Ascii.eqb_refl.
  - destruct (Ascii.eqb c sep); simpl; [discriminate|].
    intros H. now rewrite (IH H).
Qed.

Lemma count_char_app (s t : string) :
  count_char sep (s ++ t) = count_char sep s + count_char sep t.
Proof.
  induction s as [|c rest IH]; simpl; [reflexivity|].
  rewrite IH. apply Nat.add_assoc.
Qed.

(** The head of [split] has no separator; the tail is the split of
    what follows the first separator. *)
Lemma split_cons_inv (s seg : string) (segs : list string) :
  split sep s = seg :: segs ->
  count_char sep seg = 0 /\
  ((segs = [] /\ s = seg) \/
   exists rest, s = glue seg sep rest /\ segs = split sep rest).
Proof.
  revert seg segs. induction s as [|c rest IH]; simpl; intros seg segs H.
  - injection H as <- <-. split; [reflexivity|]. now left.
  - destruct (Ascii.eqb c sep) eqn:E.
    + injection H as <- <-. apply Ascii.eqb_eq in E. subst c.
      split; [reflexivity|]. right. exists rest. now split.
    + destruct (split sep rest) as [|seg' segs'] eqn:S.
      * now destruct (split_not_nil rest).
      * injection H as <- <-.
        destruct (IH seg' segs' eq_refl) as [H0 [[-> ->]|[rest' [-> ->]]]].
        -- split; [simpl; now rewrite E|]. now left.
        -- split; [simpl; now rewrite E|]. right. exists rest'. now split.
Qed.

Lemma last_split_glue (p q : string) :
  last (split sep (glue p sep q)) EmptyString = last (split sep q) EmptyString.
Proof.
  unfold glue. induction p as [|c rest IH]; simpl.
  - rewrite Ascii.eqb_refl.
    destruct (split sep q) eqn:S; [now destruct (split_not_nil q)|reflexivity].
  - destruct (Ascii.eqb c sep).
    + destruct (split sep (rest ++ String sep q)) eqn:S;
        [now destruct (split_not_nil (rest ++ String sep q))|exact IH].
    + destruct (split sep (rest ++ String sep q)) as [|seg segs] eqn:S;
        [now destruct (split_not_nil (rest ++ String sep q))|].
      destruct segs as [|seg2 segs].
      * exfalso.
        pose proof (split_length (rest ++ String sep q)) as L.
        rewrite S, count_char_app in L. simpl in L.
        rewrite Ascii.eqb_refl in L. lia.
      * exact IH.
Qed.

(** [nth_error (split sep k) 1] is the second segment. *)
Lemma second_segment_spec (k seg : string) :
  nth_error (split sep k) 1 = Some seg <-> second_segment sep k seg.
Proof.
  split.
  - destruct (split sep k) as [|p segs] eqn:S; [discriminate|].
    destruct segs as [|seg' segs]; [discriminate|].
    simpl. intros [= ->].
    destruct (split_cons_inv _ _ _ S) as [Hp [[? _]|[rest [-> Hr]]]];
      [discriminate|].
    symmetry in Hr.
    destruct (split_cons_inv _ _ _ Hr) as [Hs [[_ ->]|[rest' [-> _]]]].
    + exists p, EmptyString. repeat split; auto.
      unfold glue. f_equal. f_equal.
      clear. induction seg; simpl; congruence.
    + exists p, (String sep rest'). repeat split; eauto.
  - intros (p & r & -> & Hp & Hs & Hr).
    rewrite (split_glue _ _ Hp). simpl.
    destruct Hr as [->|[r' ->]].
    + replace (seg ++ "")%string with seg
        by (clear; induction seg; simpl; congruence).
      now rewrite (split_no_sep _ Hs).
    + change (seg ++ String sep r')%string with (glue seg sep r').
      now rewrite (split_glue _ _ Hs).
Qed.

Lemma last_split_is_last_segment (k : string) :
  last_segment sep k (last (split sep k) EmptyString).
Proof.
  induction k as [|c rest IH].
  - split; [reflexivity|now left].
  - pose proof (split_length rest) as L.
    simpl split. destruct (Ascii.eqb c sep) eqn:E.
    + apply Ascii.eqb_eq in E. subst c.
      destruct (split sep rest) as [|seg segs] eqn:S; [discriminate|].
      change (last (EmptyString :: seg :: segs) EmptyString)
        with (last (seg :: segs) EmptyString).
      destruct IH as [H0 [Hk|[p Hk]]]; (split; [exact H0|right]).
      * exists EmptyString. unfold glue. simpl. now f_equal.
      * exists (String sep p). unfold glue in *. simpl. now f_equal.
    + destruct (split sep rest) as [|seg segs] eqn:S; [discriminate|].
      destruct segs as [|seg2 segs].
      * simpl in L. assert (C : count_char sep rest = 0) by lia.
        rewrite (split_no_sep _ C) in S. injection S as <-.
        split; [simpl; now rewrite E|now left].
      * change (last (String c seg :: seg2 :: segs) EmptyString)
          with (last (seg :: seg2 :: segs) EmptyString).
        destruct IH as [H0 [Hk|[p Hk]]]; (split; [exact H0|]).
        -- exfalso. rewrite Hk in L. rewrite H0 in L. simpl in L. lia.
        -- right. exists (String c p). unfold glue in *. simpl. now f_equal.
Qed.

(** [last (split sep k)] is the last segment. *)
Lemma last_segment_spec (k seg : string) :
  last (split sep k) EmptyString = seg <-> last_segment sep k seg.
Proof.
  split.
  - intros <-. apply last_split_is_last_segment.
  - intros [H0 [->|[p ->]]].
    + now rewrite (split_no_sep _ H0).
    + rewrite last_split_glue. now rewrite (split_no_sep _ H0).
Qed.
End Split.

(* ================================================================== *)
(** * [find] and the first match *)
(* ================================================================== *)

Section Find.
Context {A : Type} (f : A -> bool) (P : A -> Prop).
Hypothesis f_spec : forall x, f x = true <-> P x.

Lemma find_none_such (l : list A) : find f l = None <-> none_such P l.
Proof.
  unfold none_such. induction l as [|x l IH]; simpl.
  - split; [constructor|reflexivity].
  - destruct (f x) eqn:E.
    + split; [discriminate|]. intros H. inversion H; subst.
      exfalso. apply H2. now apply f_spec.
    + rewrite IH. split.
      * intros H. constructor; [|exact H].
        intros Px. apply f_spec in Px. congruence.
      * intros H. now inversion H.
Qed.

Lemma find_first_such (l : list A) (k : A) :
  find f l = Some k <-> first_such P l k.
Proof.
  unfold first_such. induction l as [|x l IH]; simpl.
  - split; [discriminate|]. intros (b & a & H & _). now destruct b.
  - destruct (f x) eqn:E.
    + split.
      * intros [= ->]. exists [], l. repeat split; [|constructor].
        now apply f_spec.
      * intros (b & a & H & Pk & Hb). destruct b as [|y b]; simpl in H.
        -- now injection H as ->.
        -- injection H as -> _. inversion Hb; subst.
           exfalso. apply H1. now apply f_spec.
    + rewrite IH. split.
      * intros (b & a & -> & Pk & Hb). exists (x :: b), a.
        repeat split; [exact Pk|]. constructor; [|exact Hb].
        intros Px. apply f_spec in Px. congruence.
      * intros (b & a & H & Pk & Hb). destruct b as [|y b]; simpl in H.
        -- injection H as -> _. apply f_spec in Pk. congruence.
        -- injection H as -> ->. inversion Hb; subst. now exists b, a.
Qed.
End Find.

Lemma hash_segment_is_spec (key k : string) :
  hash_segment_is key k = true <-> second_segment "#" k key.
Proof.
  unfold hash_segment_is. rewrite <- second_segment_spec.
  destruct (nth_error (split "#" k) 1) as [seg|].
  - rewrite String.eqb_eq. split; [now intros ->|now intros [= ->]].
  - split; discriminate.
Qed.

Lemma slash_segment_is_spec (key k : string) :
  slash_segment_is key k = true <-> last_segment "/" k key.
Proof.
  unfold slash_segment_is. rewrite <- last_segment_spec. apply String.eqb_eq.
Qed.

(** What [getFullKey] returns, in terms of the keys of the node. *)
Lemma getFullKey_spec (scope : Scope) (key : string) :
  (forall fullKey,
      first_such (fun k => second_segment "#" k key) (keys scope) fullKey ->
      getFullKey scope key = Some fullKey) /\
  (forall fullKey,
      none_such (fun k => second_segment "#" k key) (keys scope) ->
      first_such (fun k => last_segment "/" k key) (keys scope) fullKey ->
      getFullKey scope key = Some fullKey) /\
  (none_such (fun k => second_segment "#" k key) (keys scope) ->
   none_such (fun k => last_segment "/" k key) (keys scope) ->
   getFullKey scope key = None).
Proof.
  unfold getFullKey. repeat split.
  - intros fullKey H.
    apply (find_first_such _ _ (hash_segment_is_spec key)) in H. now rewrite H.
  - intros fullKey N H.
    apply (find_none_such _ _ (hash_segment_is_spec key)) in N.
    apply (find_first_such _ _ (slash_segment_is_spec key)) in H.
    now rewrite N.
  - intros N1 N2.
    apply (find_none_such _ _ (hash_segment_is_spec key)) in N1.
    apply (find_none_such _ _ (slash_segment_is_spec key)) in N2.
    now rewrite N1.
Qed.

(** When the reserved-key step yields nothing, [read] on a node is the
    generic path. *)
Lemma read_generic (scope : Scope) (key : string) (ignored : JsValue) :
  readAsPreDefinedKey scope key = Normal (ignored, false) ->
  reader_read (Present (JsObject scope)) (Key key) =
  match getFullKey scope key with
  | Some fullKey => resolved scope key fullKey
  | None => Normal (Nothing (Error ("Not found key: " ++ key)))
  end.
Proof.
  intros H. simpl. unfold readAsObject. rewrite H. simpl.
  unfold resolved, JsonLDReader_of. reflexivity.
Qed.

(** A key that is none of the six reserved spellings skips the reserved
    step. *)
Lemma readAsPreDefinedKey_other (scope : Scope) (key : string) :
  includes ["type"; "@type"; "id"; "@id"; "value"; "@value"] key = false ->
  readAsPreDefinedKey scope key = Normal (JsString "", false).
Proof.
  unfold readAsPreDefinedKey, includes. simpl. intros H.
  repeat (apply orb_false_elim in H; destruct H as [?E H]).
  now rewrite E, E0, E1, E2, E3, E4.
Qed.

(* ================================================================== *)
(** * Properties of the key resolver *)
(* ================================================================== *)

(** C1 (as amended).  On a Present Reader over a node-object, when the
    key is not reserved or the reserved step found nothing, [read(k)]
    settles on the first key, in the order of [Object.keys], whose
    second [#]-separated segment (the text between its first [#] and the
    next [#] or its end) is [k]; failing that, on the first key whose
    text after its last [/] (all of it when it has no [/]) is [k]; and
    when no key passes either test it returns a [Nothing] whose message
    is ["Not found key: "] followed by [k]. *)
Theorem C1_generic_key_resolution
        (scope : Scope) (key : string) (ignored : JsValue) :
  readAsPreDefinedKey scope key = Normal (ignored, false) ->
  (forall fullKey,
      first_such (fun k => second_segment "#" k key) (keys scope) fullKey ->
      reader_read (Present (JsObject scope)) (Key key)
      = resolved scope key fullKey) /\
  (forall fullKey,
      none_such (fun k => second_segment "#" k key) (keys scope) ->
      first_such (fun k => last_segment "/" k key) (keys scope) fullKey ->
      reader_read (Present (JsObject scope)) (Key key)
      = resolved scope key fullKey) /\
  (none_such (fun k => second_segment "#" k key) (keys scope) ->
   none_such (fun k => last_segment "/" k key) (keys scope) ->
   reader_read (Present (JsObject scope)) (Key key)
   = Normal (Nothing (Error ("Not found key: " ++ key)))).
Proof.
  intros H. rewrite (read_generic _ _ _ H).
  destruct (getFullKey_spec scope key) as (H1 & H2 & H3).
  repeat split.
  - intros fullKey F. now rewrite (H1 _ F).
  - intros fullKey N F. now rewrite (H2 _ N F).
  - intros N1 N2. now rewrite (H3 N1 N2).
Qed.

(** C1, as the specification words it, fails: a key with two [#] is
    matched on the segment between them, not on what follows the last
    one; and a key without [/] is matched whole by the second test. *)
Lemma C1_last_hash_counterexample :
  ~ (forall (scope : Scope) (key : string) (ignored : JsValue) fullKey,
        readAsPreDefinedKey scope key = Normal (ignored, false) ->
        first_such (fun k => after_last "#" k key) (keys scope) fullKey ->
        reader_read (Present (JsObject scope)) (Key key)
        = resolved scope key fullKey) /\
  ~ (forall (scope : Scope) (key : string) (ignored : JsValue),
        readAsPreDefinedKey scope key = Normal (ignored, false) ->
        none_such (fun k => after_last "#" k key) (keys scope) ->
        none_such (fun k => after_last "/" k key) (keys scope) ->
        reader_read (Present (JsObject scope)) (Key key)
        = Normal (Nothing (Error ("Not found key: " ++ key)))).
Proof.
  split; intros H.
  - specialize (H [("https://example.org/ns#v1#name", JsString "juunini")]
                  "name" (JsString "") "https://example.org/ns#v1#name"
                  eq_refl).
    assert (F : first_such (fun k => after_last "#" k "name")
                  (keys [("https://example.org/ns#v1#name",
                          JsString "juunini")])
                  "https://example.org/ns#v1#name").
    { exists [], []. repeat split; [|constructor].
      now exists "https://example.org/ns#v1". }
    specialize (H F). discriminate H.
  - specialize (H [("name", JsString "juunini")] "name" (JsString "")
                  eq_refl).
    assert (N : forall sep, sep = "#"%char \/ sep = "/"%char ->
                none_such (fun k => after_last sep k "name")
                          (keys [("name", JsString "juunini")])).
    { intros sep S. constructor; [|constructor].
      intros [_ [p E]]. apply (f_equal (count_char sep)) in E.
      unfold glue in E. rewrite count_char_app in E. cbn [count_char] in E.
      rewrite Ascii.eqb_refl in E.
      destruct S as [->| ->]; cbn in E; lia. }
    specialize (H (N _ (or_introl eq_refl)) (N _ (or_intror eq_refl))).
    discriminate H.
Qed.

Lemma C1_generic_key_resolution_witness :
  readAsPreDefinedKey outbox_node "outbox" = Normal (JsString "", false) /\
  reader_read (Present (JsObject outbox_node)) (Key "outbox")
  = resolved outbox_node "outbox"
             "https://www.w3.org/ns/activitystreams#outbox".
Proof.
  split; [reflexivity|].
  apply (proj1 (C1_generic_key_resolution outbox_node "outbox" _ eq_refl)).
  exists ["@id"], []. repeat split.
  - apply second_segment_spec. reflexivity.
  - constructor; [|constructor].
    intros H. apply second_segment_spec in H. discriminate H.
Defined.

(** A string key on a sequence of three elements or more is refused. *)
Lemma read_key_long_sequence (xs : list JsValue) (key : option string) :
  2 < List.length xs ->
  read (JsArray xs) None key = Normal (Nothing (Error "Not an object")).
Proof.
  intros H. simpl. apply Nat.ltb_lt in H. now rewrite H.
Qed.

(** A string key on a sequence of one or two elements is resolved
    against its first element. *)
Lemma read_key_short_sequence (x : JsValue) (xs : list JsValue)
      (key : option string) :
  List.length xs <= 1 ->
  read (JsArray (x :: xs)) None key = read x None key.
Proof.
  intros H. simpl.
  destruct (Nat.ltb_spec 2 (S (List.length xs))); [lia|reflexivity].
Qed.

(** C2.  The code at a sequence of two nodes: the guard of [read] is
    [jsonld.length > 2], so that [read('name')] descends into the first
    element and returns a Present Reader, where the claim has the
    Reader [Nothing] with ["Not an object"]. *)
Theorem C2_two_element_sequence_descends :
  reader_read (Present (JsArray [name_node "first"; name_node "second"]))
              (Key "name")
  = Normal (Present (JsArray [JsObject [("@value", JsString "first")]])).
Proof. reflexivity. Qed.

(** C4.  Type extraction: a sequence is reduced to its first element; a
    literal wrapper yields its ['@value']; a string with exactly one
    [#] yields what follows it; failing that, a string with a [/]
    yields what follows the last one; a string with neither is returned
    as it is.  Hence [read('type').get()] is ["Person"] on both
    [https://example.org/ns#Person] and [https://example.org/Person]. *)
Theorem C4_type_extraction :
  (forall xs, extractType (JsArray xs) = extractType (element xs 0)) /\
  (forall scope literal,
      lookup "@value" scope = Some literal ->
      extractType (JsObject scope) = Normal literal) /\
  (forall p q,
      count_char "#" p = 0 -> count_char "#" q = 0 ->
      extractType (JsString (glue p "#" q)) = Normal (JsString q)) /\
  (forall p q,
      count_char "#" (glue p "/" q) <> 1 -> count_char "/" q = 0 ->
      extractType (JsString (glue p "/" q)) = Normal (JsString q)) /\
  (forall s,
      count_char "#" s = 0 -> count_char "/" s = 0 ->
      extractType (JsString s) = Normal (JsString s)) /\
  (forall iri,
      iri = "https://example.org/ns#Person" \/
      iri = "https://example.org/Person" ->
      read_get (typed_node iri) "type" = Normal (JsString "Person")).
Proof.
  repeat split.
  - intros [|x xs]; reflexivity.
  - intros scope literal H. simpl. unfold prop. now rewrite H.
  - intros p q Hp Hq. simpl.
    rewrite (split_glue _ _ _ Hp), (split_no_sep _ _ Hq). reflexivity.
  - intros p q Hh Hq.
    assert (L1 : Nat.eqb (List.length (split "#" (glue p "/" q))) 2 = false)
      by (rewrite split_length; apply Nat.eqb_neq; lia).
    assert (L2 : Nat.eqb (List.length (split "/" (glue p "/" q))) 1 = false).
    { rewrite split_length. unfold glue. rewrite count_char_app. simpl.
      apply Nat.eqb_neq. lia. }
    cbn [extractType extractType_scalar].
    now rewrite L1, L2, last_split_glue, (split_no_sep _ _ Hq).
  - intros s Hh Hs. simpl. rewrite !split_length, Hh, Hs. reflexivity.
  - intros iri [->| ->]; reflexivity.
Qed.

Lemma C4_type_extraction_witness :
  count_char "#" "https://example.org/ns" = 0 /\
  count_char "#" "Person" = 0 /\
  extractType (JsString "https://example.org/ns#Person")
  = Normal (JsString "Person").
Proof.
  split; [reflexivity|]. split; [reflexivity|].
  exact (proj1 (proj2 (proj2 C4_type_extraction))
               "https://example.org/ns" "Person" eq_refl eq_refl).
Defined.

(** The reserved step does not tell the two spellings of a key apart. *)
Lemma readAsPreDefinedKey_alias (scope : Scope) :
  readAsPreDefinedKey scope "id" = readAsPreDefinedKey scope "@id" /\
  readAsPreDefinedKey scope "type" = readAsPreDefinedKey scope "@type" /\
  readAsPreDefinedKey scope "value" = readAsPreDefinedKey scope "@value".
Proof. repeat split. Qed.

(** With the canonical field in place the reserved step succeeds. *)
Lemma readAsPreDefinedKey_canonical (scope : Scope) :
  (holds scope "@id" ->
   readAsPreDefinedKey scope "@id" = Normal (prop scope "@id", true)) /\
  (holds scope "@type" ->
   readAsPreDefinedKey scope "@type"
   = (t <- extractType (prop scope "@type") ;; Normal (t, true))) /\
  (holds scope "@value" ->
   readAsPreDefinedKey scope "@value" = Normal (prop scope "@value", true)).
Proof.
  unfold holds, readAsPreDefinedKey, readId, readType, readValue.
  repeat split; intros H; simpl; rewrite H; simpl; try reflexivity.
  now destruct (extractType (prop scope "@type")).
Qed.

(** C5.  On a node that holds the canonical form of a reserved key, the
    two spellings read the same: [read('id').get()] is
    [read('@id').get()], and likewise for the type and for the value. *)
Theorem C5_reserved_key_aliasing (scope : Scope) (fragment : JsValue) :
  fragment = JsObject scope \/ fragment = JsArray [JsObject scope] ->
  (holds scope "@id" -> read_get fragment "id" = read_get fragment "@id") /\
  (holds scope "@type" ->
   read_get fragment "type" = read_get fragment "@type") /\
  (holds scope "@value" ->
   read_get fragment "value" = read_get fragment "@value").
Proof.
  intros F.
  assert (E : forall key,
             read_get fragment key
             = (r <- readAsObject scope key ;; get r))
    by (intros key; destruct F as [->| ->]; reflexivity).
  rewrite !E. clear E F.
  destruct (readAsPreDefinedKey_alias scope) as (Ai & At & Av).
  destruct (readAsPreDefinedKey_canonical scope) as (Ci & Ct & Cv).
  unfold readAsObject. repeat split; intros H.
  - rewrite Ai, (Ci H). reflexivity.
  - rewrite At, (Ct H). now destruct (extractType (prop scope "@type")).
  - rewrite Av, (Cv H). reflexivity.
Qed.

Lemma C5_reserved_key_aliasing_witness :
  holds outbox_node "@id" /\
  read_get (JsArray [JsObject outbox_node]) "id"
  = read_get (JsArray [JsObject outbox_node]) "@id".
Proof.
  split; [reflexivity|].
  exact (proj1 (C5_reserved_key_aliasing
                  outbox_node (JsArray [JsObject outbox_node])
                  (or_intror eq_refl))
               eq_refl).
Defined.

(** C7.  [Nothing] absorbs: when [R.read(m)] is a [Nothing], a further
    [read] of any key or index returns that same [Nothing], with the
    error it was built with. *)
Theorem C7_nothing_is_absorbing
        (R : JsonLDReader) (m x : KeyOrIndex) (e : JsError) :
  reader_read R m = Normal (Nothing e) ->
  (r <- reader_read R m ;; reader_read r x) = Normal (Nothing e).
Proof.
  intros H. rewrite H. reflexivity.
Qed.

Lemma C7_nothing_is_absorbing_witness :
  reader_read (Present (JsObject outbox_node)) (Key "uid")
  = Normal (Nothing (Error "Not found key: uid")) /\
  (r <- reader_read (Present (JsObject outbox_node)) (Key "uid") ;;
   reader_read r (Index 0))
  = Normal (Nothing (Error "Not found key: uid")).
Proof.
  split; [reflexivity|].
  exact (C7_nothing_is_absorbing
           (Present (JsObject outbox_node)) (Key "uid") (Index 0)
           (Error "Not found key: uid") eq_refl).
Defined.

(* ================================================================== *)
(** * Numbers *)
(* ================================================================== *)

(** [x === 1] holds of the number [1] only. *)
Lemma number_is_one (x : float) :
  PrimFloat.eqb x 1%float = true <-> x = 1%float.
Proof.
  split; [|now intros ->].
  rewrite eqb_spec. intros H.
  rewrite <- (SF2Prim_Prim2SF x).
  destruct (Prim2SF x) as [s|s| |s m e]; try discriminate H;
    try (destruct s; discriminate H).
  unfold SFeqb, SFcompare in H.
  change (Prim2SF 1%float)
    with (S754_finite false 4503599627370496 (-52)) in H.
  cbv iota beta in H.
  destruct s; [discriminate H|].
  destruct (e ?= -52)%Z eqn:Ce; try discriminate H.
  apply Z.compare_eq in Ce. subst e.
  destruct (Pos.compare_cont Eq m 4503599627370496) eqn:C;
    try discriminate H.
  apply (Pos.compare_eq m 4503599627370496) in C. subst m. reflexivity.
Qed.

(** [x === 0] holds of the two zeros only. *)
Lemma number_is_zero (x : float) :
  PrimFloat.eqb x 0%float = true <-> x = 0%float \/ x = neg_zero.
Proof.
  split; [|now intros [->| ->]].
  rewrite eqb_spec. intros H.
  rewrite <- (SF2Prim_Prim2SF x).
  destruct (Prim2SF x) as [s|s| |s m e]; try discriminate H;
    try (destruct s; discriminate H).
  destruct s; [now right|now left].
Qed.

(* ================================================================== *)
(** * Properties of the typed extraction *)
(* ================================================================== *)

(** [booleanOrThrow] once [getValue] has returned [u]. *)
Lemma booleanOrThrow_unwrapped (v u : JsValue) (error : option JsError) :
  getValue v = Normal u ->
  booleanOrThrow (Present v) error
  = match u with
    | JsBoolean b => Normal b
    | JsString s =>
        if String.eqb s "true" || String.eqb s "false"
           || String.eqb s "0" || String.eqb s "1"
        then Normal (String.eqb s "true" || String.eqb s "1")
        else Throw (or_error error (Error "Not a boolean"))
    | JsNumber n =>
        if PrimFloat.eqb n 0%float || PrimFloat.eqb n 1%float
        then Normal (PrimFloat.eqb n 1%float)
        else Throw (or_error error (Error "Not a boolean"))
    | _ => Throw (or_error error (Error "Not a boolean"))
    end.
Proof.
  intros H. unfold booleanOrThrow. rewrite H. now destruct u.
Qed.

(** The tests of [booleanOrThrow] on a number and on a string, against
    the tokens they stand for. *)
Lemma number_tokens (n : float) :
  (PrimFloat.eqb n 1%float = true <-> reads_as_true (JsNumber n)) /\
  (PrimFloat.eqb n 0%float = true <-> reads_as_false (JsNumber n)) /\
  (PrimFloat.eqb n 1%float = true -> PrimFloat.eqb n 0%float = false).
Proof.
  unfold reads_as_true, reads_as_false.
  rewrite number_is_one, number_is_zero. split; [|split].
  - split; [intros ->; now do 3 right|].
    intros [C|[C|[C|C]]]; try discriminate C. now injection C.
  - split; [intros [->| ->]; [do 3 right; now left|now do 4 right]|].
    intros [C|[C|[C|[C|C]]]]; try discriminate C;
      injection C as ->; [now left|now right].
  - now intros ->.
Qed.

Lemma string_tokens (s : string) :
  (String.eqb s "true" || String.eqb s "1" = true
   <-> reads_as_true (JsString s)) /\
  (String.eqb s "false" || String.eqb s "0" = true
   <-> reads_as_false (JsString s)) /\
  (String.eqb s "true" || String.eqb s "1" = true ->
   String.eqb s "false" || String.eqb s "0" = false).
Proof.
  unfold reads_as_true, reads_as_false.
  split; [|split];
    [| |rewrite orb_true_iff, !String.eqb_eq; now intros [->| ->]];
    rewrite !orb_true_iff, !String.eqb_eq; split.
  - intros [->| ->]; [right; now left|right; right; now left].
  - intros [C|[C|[C|C]]]; try discriminate C;
      injection C as ->; [now left|now right].
  - intros [->| ->]; [right; now left|right; right; now left].
  - intros [C|[C|[C|[C|C]]]]; try discriminate C;
      injection C as ->; [now left|now right].
Qed.

(** C6.  [booleanOrThrow] returns [true] exactly when the unwrapped
    value is [true], ["true"], ["1"] or the number 1; [false] exactly
    when it is [false], ["false"], ["0"] or the number 0; on any other
    unwrapped value, such as ["yes"] or 2, it throws the caller's error
    or else ["Not a boolean"]. *)
Theorem C6_boolean_coercion (v u : JsValue) (error : option JsError) :
  getValue v = Normal u ->
  (booleanOrThrow (Present v) error = Normal true <-> reads_as_true u) /\
  (booleanOrThrow (Present v) error = Normal false <-> reads_as_false u) /\
  (~ reads_as_true u -> ~ reads_as_false u ->
   booleanOrThrow (Present v) error
   = Throw (or_error error (Error "Not a boolean"))) /\
  (u = JsString "yes" \/ u = JsNumber 2%float ->
   booleanOrThrow (Present v) None = Throw (Error "Not a boolean")).
Proof.
  intros H. rewrite !(booleanOrThrow_unwrapped _ _ _ H). clear H v.
  split; [|split; [|split]];
    [| | |intros [->| ->]; reflexivity];
    destruct u as [| |b|n|z|s|xs|scope];
    try solve [unfold reads_as_true, reads_as_false;
               intuition congruence];
    try solve [destruct b; unfold reads_as_true, reads_as_false;
               intuition congruence];
    try solve [destruct (number_tokens n) as (T & F & X);
               destruct (PrimFloat.eqb n 1%float), (PrimFloat.eqb n 0%float);
               cbn [orb] in *; intuition congruence].
  all: destruct (string_tokens s) as (T & F & X);
    destruct (String.eqb s "true"), (String.eqb s "false"),
      (String.eqb s "0"), (String.eqb s "1");
    cbn [orb] in *; intuition congruence.
Qed.

Lemma C6_boolean_coercion_witness :
  getValue (JsArray [JsObject [("@value", JsString "true")]])
  = Normal (JsString "true") /\
  booleanOrThrow (Present (JsArray [JsObject [("@value", JsString "true")]]))
                 None
  = Normal true.
Proof.
  split; [reflexivity|].
  apply (proj1 (C6_boolean_coercion
                  (JsArray [JsObject [("@value", JsString "true")]])
                  (JsString "true") None eq_refl)).
  right. left. reflexivity.
Defined.

(* ================================================================== *)
(** * Properties of the terminal calls *)
(* ================================================================== *)

(** The two [??] of [getValue] against the amended unwrap rule. *)
Lemma coalesce_object_unwrap (e : JsValue) :
  coalesce (opt_member e "@value") (coalesce (opt_member e "@id") e)
  = object_unwrap e.
Proof.
  destruct e as [| |b|n|z|s|xs|scope]; try reflexivity.
  unfold object_unwrap, field, opt_member, member, prop. cbn [is_nullish].
  destruct (lookup "@value" scope) as [l|]; [destruct l|];
    destruct (lookup "@id" scope) as [i|]; try destruct i; reflexivity.
Qed.

(** [getValue] on a fragment that is neither [null] nor [undefined],
    and not an object with a [length] of its own equal to 1. *)
Lemma getValue_unwrap (v : JsValue) :
  is_nullish v = false ->
  (forall scope, v = JsObject scope -> length_is_1 v = false) ->
  getValue v = Normal (unwrap v).
Proof.
  intros N L. destruct v as [| |b|n|z|s|xs|scope];
    try discriminate N; try reflexivity.
  - destruct xs as [|e [|e2 xs]]; try reflexivity.
    unfold getValue, unwrap. cbn [typeof includes existsb String.eqb
      Ascii.eqb Bool.eqb orb length_is_1 List.length Nat.eqb first element
      is_primitive].
    cbn. now rewrite coalesce_object_unwrap.
  - unfold getValue. rewrite (L scope eq_refl).
    unfold unwrap, object_unwrap, field, get_member, member, prop, coalesce.
    cbn [typeof is_primitive is_nullish].
    change (includes _ "object") with false. cbv iota.
    destruct (lookup "@value" scope) as [l|]; [destruct l|]; cbn;
      destruct (lookup "@id" scope) as [i|]; try destruct i; reflexivity.
Qed.

(** C3 (as amended).  On a Present Reader whose fragment is neither
    [null] nor [undefined] (nor an object with a [length] field of its
    own equal to 1), [get], [getOrThrow] and [getOrElse] return the same
    value: a primitive as it is; for a sequence of length 1, the
    ['@value'] of its sole element when that is neither [null] nor
    [undefined], else its ['@id'] on the same condition, else the
    element; otherwise the same rule applied to the fragment. *)
Theorem C3_unwrap_rule
        (v defaultValue : JsValue) (error : option JsError) :
  is_nullish v = false ->
  (forall scope, v = JsObject scope -> length_is_1 v = false) ->
  get (Present v) = Normal (unwrap v) /\
  getOrThrow (Present v) error = Normal (unwrap v) /\
  getOrElse (Present v) defaultValue = Normal (unwrap v).
Proof.
  intros N L. unfold get, getOrThrow, getOrElse.
  now rewrite (getValue_unwrap v N L).
Qed.

Lemma C3_unwrap_rule_witness :
  is_nullish (JsArray [JsObject [("@value", JsString "juunini")]]) = false /\
  get (Present (JsArray [JsObject [("@value", JsString "juunini")]]))
  = Normal (JsString "juunini").
Proof.
  split; [reflexivity|].
  apply (C3_unwrap_rule
           (JsArray [JsObject [("@value", JsString "juunini")]])
           JsNull None eq_refl).
  intros scope H. discriminate H.
Defined.

(** C3, as the specification words it, fails: a ['@value'] that is
    there but holds [null] is passed over by [??], and so is an ['@id'];
    a fragment that is [null] makes the three calls throw; an object
    with a [length] of 1 is taken for a sequence. *)
Lemma C3_present_field_counterexample :
  get (Present (JsArray [JsObject [("@value", JsNull);
                                   ("@id", JsString "_:b0")]]))
  = Normal (JsString "_:b0") /\
  spec_unwrap (JsArray [JsObject [("@value", JsNull);
                                  ("@id", JsString "_:b0")]])
  = JsNull /\
  get (Present JsNull) = Throw TypeError /\
  spec_unwrap JsNull = JsNull /\
  get (Present (JsObject [("length", JsNumber 1%float);
                          ("@value", JsString "juunini")]))
  = Normal JsUndefined /\
  spec_unwrap (JsObject [("length", JsNumber 1%float);
                         ("@value", JsString "juunini")])
  = JsString "juunini".
Proof. repeat split. Qed.

(** C8.  The code at a Present Reader without a value: [getOrElse]
    returns [this.getValue()] outside any [try], so that the
    [TypeError] of the property access on [undefined] (here after
    [read('type')] on a type given by reference) or on [null] reaches
    the caller, whatever the default. *)
Theorem C8_getOrElse_raises (defaultValue : JsValue) :
  (r <- reader_read (Present typed_by_reference) (Key "type") ;;
   getOrElse r defaultValue) = Throw TypeError /\
  getOrElse (Present JsNull) defaultValue = Throw TypeError.
Proof. split; reflexivity. Qed.

Section TypedExtraction.
Context {conv : NumberConversions}.

(** On a [Nothing] the four calls return the default. *)
Lemma orElse_on_Nothing (e : JsError) :
  (forall d, getOrElse (Nothing e) d = Normal d) /\
  (forall d, stringOrElse (Nothing e) d = Normal d) /\
  (forall d, numberOrElse (Nothing e) d = Normal d) /\
  (forall d, booleanOrElse (Nothing e) d = Normal d).
Proof. repeat split. Qed.

(** The three typed calls never raise: what [getValue] or the
    coercion throws is caught and replaced by the default. *)
Lemma typed_orElse_total (this : JsonLDReader) :
  (forall d, exists s, stringOrElse this d = Normal s) /\
  (forall d, exists n, numberOrElse this d = Normal n) /\
  (forall d, exists b, booleanOrElse this d = Normal b).
Proof.
  destruct this as [v|e]; [|repeat split; intros d; now exists d].
  unfold stringOrElse, numberOrElse, booleanOrElse, try_catch.
  repeat split; intros d.
  - destruct (stringOrThrow (Present v) None) as [s|]; eauto.
  - destruct (numberOrThrow (Present v) None) as [n|]; eauto.
  - destruct (booleanOrThrow (Present v) None) as [b|]; eauto.
Qed.

(** A failed coercion is replaced by the default. *)
Lemma typed_orElse_swallows (v : JsValue) (e : JsError) :
  (stringOrThrow (Present v) None = Throw e ->
   forall d, stringOrElse (Present v) d = Normal d) /\
  (numberOrThrow (Present v) None = Throw e ->
   forall d, numberOrElse (Present v) d = Normal d) /\
  (booleanOrThrow (Present v) None = Throw e ->
   forall d, booleanOrElse (Present v) d = Normal d).
Proof.
  unfold stringOrElse, numberOrElse, booleanOrElse.
  repeat split; intros H d; now rewrite H.
Qed.

(** C10.  [numberOrThrow] on a Present Reader succeeds whenever the
    numeric conversion of the unwrapped value is not NaN: on an empty
    sequence it returns 0, on a boolean 0 or 1, on a string of white
    space 0, none of which is a number or a numeric string. *)
Theorem C10_number_coercion (error : option JsError) :
  (forall v u n,
      getValue v = Normal u -> ToNumber u = Normal n -> is_nan n = false ->
      numberOrThrow (Present v) error = Normal n) /\
  numberOrThrow (Present (JsArray [])) error = Normal 0%float /\
  (forall b : bool,
      numberOrThrow (Present (JsBoolean b)) error
      = Normal (if b then 1%float else 0%float)) /\
  (forall s,
      blank s = true ->
      numberOrThrow (Present (JsString s)) error = Normal 0%float).
Proof.
  repeat split.
  - intros v u n G T N. unfold numberOrThrow. rewrite G. cbn [bind].
    destruct u; try (rewrite T; cbn [bind]; now rewrite N).
    cbn in T. now injection T as ->.
  - intros [|]; reflexivity.
  - intros s B. unfold numberOrThrow. cbn.
    unfold StringToNumber. now rewrite B.
Qed.
End TypedExtraction.

Lemma C10_number_coercion_witness :
  getValue (JsArray [JsObject [("@value", JsString "42")]])
  = Normal (JsString "42") /\
  ToNumber (conv := decimal_integers) (JsString "42") = Normal 42%float /\
  is_nan 42%float = false /\
  numberOrThrow (conv := decimal_integers)
                (Present (JsArray [JsObject [("@value", JsString "42")]]))
                None
  = Normal 42%float.
Proof.
  repeat (split; [reflexivity|]).
  exact (proj1 (C10_number_coercion (conv := decimal_integers) None)
               (JsArray [JsObject [("@value", JsString "42")]])
               (JsString "42") 42%float eq_refl eq_refl eq_refl).
Defined.

(* ================================================================== *)
(** * The invariant of the Readers *)
(* ================================================================== *)

Lemma element_data (xs : list JsValue) (i : Z) :
  forallb is_data xs = true ->
  is_undefined (element xs i) = false ->
  is_data (element xs i) = true.
Proof.
  intros D U. unfold element in *.
  destruct (i <? 0)%Z; [discriminate U|].
  destruct (nth_in_or_default (Z.to_nat i) xs JsUndefined) as [I|E].
  - rewrite forallb_forall in D. now apply D.
  - rewrite E in U. discriminate U.
Qed.

Lemma lookup_data (scope : Scope) (k : string) (v : JsValue) :
  forallb (fun p => is_data (snd p)) scope = true ->
  lookup k scope = Some v -> is_data v = true.
Proof.
  induction scope as [|[k' v'] rest IH]; simpl; [discriminate|].
  intros D L. apply andb_prop in D. destruct D as [Dv Dr].
  destruct (String.eqb k k').
  - now injection L as <-.
  - now apply IH.
Qed.

Lemma lookup_key (scope : Scope) (k : string) :
  In k (keys scope) -> exists v, lookup k scope = Some v.
Proof.
  induction scope as [|[k' v'] rest IH]; simpl; [contradiction|].
  intros [->|I].
  - rewrite String.eqb_refl. now exists v'.
  - destruct (String.eqb k k'); [now exists v'|now apply IH].
Qed.

Lemma prop_defined_data (scope : Scope) (k : string) :
  forallb (fun p => is_data (snd p)) scope = true ->
  is_undefined (prop scope k) = false ->
  is_data (prop scope k) = true.
Proof.
  intros D U. unfold prop in *.
  destruct (lookup k scope) as [v|] eqn:L; [|discriminate U].
  exact (lookup_data _ _ _ D L).
Qed.

Lemma prop_found_data (scope : Scope) (f : string -> bool) (k : string) :
  forallb (fun p => is_data (snd p)) scope = true ->
  find f (keys scope) = Some k ->
  is_data (prop scope k) = true.
Proof.
  intros D F. apply find_some in F. destruct F as [I _].
  destruct (lookup_key _ _ I) as [v L].
  unfold prop. rewrite L. exact (lookup_data _ _ _ D L).
Qed.

Lemma readId_data (scope : Scope) (v : JsValue) :
  forallb (fun p => is_data (snd p)) scope = true ->
  readId scope = (v, true) -> is_data v = true.
Proof.
  intros D. unfold readId.
  destruct (is_undefined (prop scope "@id")) eqn:U; cbn [negb].
  - destruct (find (hash_segment_is "id") (keys scope)) as [k|] eqn:F;
      [|discriminate].
    intros [= <-]. exact (prop_found_data _ _ _ D F).
  - intros [= <-]. exact (prop_defined_data _ _ D U).
Qed.

Lemma readValue_data (scope : Scope) (v : JsValue) :
  forallb (fun p => is_data (snd p)) scope = true ->
  readValue scope = (v, true) -> is_data v = true.
Proof.
  intros D. unfold readValue.
  destruct (is_undefined (prop scope "@value")) eqn:U; cbn [negb].
  - destruct (find (hash_segment_is "value") (keys scope)) as [k|] eqn:F;
      [|discriminate].
    intros [= <-]. exact (prop_found_data _ _ _ D F).
  - intros [= <-]. exact (prop_defined_data _ _ D U).
Qed.

Lemma readAsObject_data (scope : Scope) (key : string) (v : JsValue) :
  forallb (fun p => is_data (snd p)) scope = true ->
  includes ["type"; "@type"] key = false ->
  readAsObject scope key = Normal (Present v) ->
  is_data v = true.
Proof.
  intros D T. unfold readAsObject, readAsPreDefinedKey. rewrite T.
  cbn [bind snd].
  assert (K : String.eqb key "type" = false).
  { unfold includes in T. simpl in T. now apply orb_false_elim in T. }
  destruct (if includes ["id"; "@id"] key then readId scope
            else (JsString "", false)) as [i [|]] eqn:I; cbn [snd bind].
  { destruct (includes ["id"; "@id"] key); [|discriminate I].
    intros [= <-]. exact (readId_data _ _ D I). }
  destruct (if includes ["value"; "@value"] key then readValue scope
            else (JsString "", false)) as [w [|]] eqn:W; cbn [snd bind].
  { destruct (includes ["value"; "@value"] key); [|discriminate W].
    intros [= <-]. exact (readValue_data _ _ D W). }
  unfold getFullKey. rewrite K.
  destruct (find (hash_segment_is key) (keys scope)) as [k|] eqn:F.
  - intros [= <-]. exact (prop_found_data _ _ _ D F).
  - destruct (find (slash_segment_is key) (keys scope)) as [k|] eqn:G;
      [|discriminate].
    intros [= <-]. exact (prop_found_data _ _ _ D G).
Qed.

(** A [read] other than of the type, on data, gives data. *)
Lemma read_data (jsonld : JsValue) :
  is_data jsonld = true ->
  forall index key v,
    match key with
    | Some k => includes ["type"; "@type"] k = false
    | None => True
    end ->
    read jsonld index key = Normal (Present v) ->
    is_data v = true.
Proof.
  induction jsonld as [| |b|n|z|s|xs IH|scope _] using JsValue_nested_ind;
    intros D index key v T;
    try (destruct index, key; simpl; discriminate).
  - destruct index as [i|]; cbn [read].
    + unfold readAsArray.
      destruct (is_undefined (element xs i)) eqn:U; cbn [negb];
        [discriminate|].
      intros [= <-]. exact (element_data _ _ D U).
    + destruct (Nat.ltb 2 (List.length xs)); [discriminate|].
      destruct xs as [|x xs]; [destruct key; discriminate|].
      inversion IH as [|? ? Hx _]; subst.
      cbn [is_data forallb] in D. apply andb_prop in D.
      apply Hx; [tauto|exact T].
  - destruct index as [i|]; cbn; [discriminate|].
    destruct key as [k|]; [|discriminate].
    intros R. exact (readAsObject_data _ _ _ D T R).
Qed.

(* ================================================================== *)
(** * Reads by index *)
(* ================================================================== *)

Lemma element_nth_error (xs : list JsValue) (i : Z) (x : JsValue) :
  (0 <= i)%Z -> nth_error xs (Z.to_nat i) = Some x -> element xs i = x.
Proof.
  intros P N. unfold element.
  destruct (Z.ltb_spec i 0); [lia|]. now apply nth_error_nth.
Qed.

Lemma element_outside (xs : list JsValue) (i : Z) :
  (i < 0)%Z \/ (Z.of_nat (List.length xs) <= i)%Z ->
  element xs i = JsUndefined.
Proof.
  intros O. unfold element.
  destruct (Z.ltb_spec i 0); [reflexivity|].
  apply nth_overflow. lia.
Qed.

(** X1.  [read(i)] on a sequence returns a Present Reader over the
    element at [i] when there is one and it is not [undefined]; a
    [Nothing] with ["Not found index: "] and [i] as the runtime prints
    that number (its decimal digits up to [2 ^ 53] in magnitude) when
    [i] is negative, past the end, or the place of a hole; on anything
    that is not a sequence, [null] and [undefined] included, a
    [Nothing] with ["Not an array"]. *)
Theorem index_read_spec (v : JsValue) (i : Z) :
  (forall xs x,
      v = JsArray xs -> (0 <= i)%Z ->
      nth_error xs (Z.to_nat i) = Some x -> is_undefined x = false ->
      reader_read (Present v) (Index i) = Normal (Present x)) /\
  (forall xs,
      v = JsArray xs ->
      (i < 0)%Z \/ (Z.of_nat (List.length xs) <= i)%Z \/
      ((0 <= i)%Z /\ nth_error xs (Z.to_nat i) = Some JsUndefined) ->
      reader_read (Present v) (Index i)
      = Normal (Nothing (Error ("Not found index: " ++ IntegerToString i)))) /\
  ((- 2 ^ 53 <= i <= 2 ^ 53)%Z -> IntegerToString i = Z_to_string i) /\
  ((forall xs, v <> JsArray xs) ->
   reader_read (Present v) (Index i) = Normal (Nothing (Error "Not an array"))).
Proof.
  split; [|split; [|split]].
  - intros xs x -> P N U. cbn. unfold readAsArray.
    rewrite (element_nth_error _ _ _ P N), U. reflexivity.
  - intros xs -> O. cbn. unfold readAsArray.
    assert (E : element xs i = JsUndefined).
    { destruct O as [O|[O|[P N]]].
      - apply element_outside. now left.
      - apply element_outside. now right.
      - exact (element_nth_error _ _ _ P N). }
    rewrite E. reflexivity.
  - intros R. unfold IntegerToString.
    destruct (Z.leb_spec (Z.abs i) (2 ^ 53)); [reflexivity|lia].
  - intros N. destruct v; try reflexivity. now destruct (N elements).
Qed.

Lemma index_read_spec_witness :
  nth_error [JsString "a"; JsString "b"] (Z.to_nat 1) = Some (JsString "b") /\
  reader_read (Present (JsArray [JsString "a"; JsString "b"])) (Index 1)
  = Normal (Present (JsString "b")).
Proof.
  split; [reflexivity|].
  apply (proj1 (index_read_spec (JsArray [JsString "a"; JsString "b"]) 1)
               [JsString "a"; JsString "b"] (JsString "b") eq_refl);
    [lia|reflexivity|reflexivity].
Defined.

(** X2.  On a Reader over a sequence of data without [undefined],
    [read(i)] returns a Present Reader exactly for the indexes from 0
    up to, not including, the [length] of the Reader. *)
Theorem index_read_within_length (xs : list JsValue) (i : Z) :
  is_data (JsArray xs) = true ->
  (exists x, reader_read (Present (JsArray xs)) (Index i) = Normal (Present x))
  <-> (0 <= i < Z.of_nat (length (Present (JsArray xs))))%Z.
Proof.
  intros D. cbn [length value]. cbn [reader_read read]. unfold readAsArray.
  split.
  - intros [x R].
    destruct (Z.ltb_spec i 0) as [Neg|Pos].
    + rewrite element_outside in R by now left. discriminate R.
    + destruct (Z.ltb_spec i (Z.of_nat (List.length xs))) as [In|Out]; [lia|].
      rewrite element_outside in R by now right. discriminate R.
  - intros [P L]. exists (element xs i).
    assert (I : In (element xs i) xs).
    { unfold element. destruct (Z.ltb_spec i 0); [lia|]. apply nth_In. lia. }
    cbn [is_data] in D. rewrite forallb_forall in D. specialize (D _ I).
    destruct (element xs i); try reflexivity. discriminate D.
Qed.

Lemma index_read_within_length_witness :
  is_data (JsArray [JsObject outbox_node]) = true /\
  ((exists x, reader_read (Present (JsArray [JsObject outbox_node])) (Index 0)
              = Normal (Present x))
   <-> (0 <= 0 < Z.of_nat (length (Present (JsArray [JsObject outbox_node]))))%Z).
Proof.
  split; [reflexivity|].
  exact (index_read_within_length [JsObject outbox_node] 0 eq_refl).
Defined.

(** X3.  On a sequence of one or two elements whose first is not
    [undefined], reading the index 0 and then a key gives the Reader
    that reading the key at once gives. *)
Theorem index_then_key (x : JsValue) (xs : list JsValue) (k : string) :
  is_undefined x = false -> List.length xs <= 1 ->
  (r <- reader_read (Present (JsArray (x :: xs))) (Index 0) ;;
   reader_read r (Key k))
  = reader_read (Present (JsArray (x :: xs))) (Key k).
Proof.
  intros U L. cbn [reader_read].
  rewrite (read_key_short_sequence x xs (Some k) L).
  cbn [read]. unfold readAsArray. cbn [element Z.ltb Z.compare Z.to_nat nth].
  rewrite U. reflexivity.
Qed.

Lemma index_then_key_witness :
  is_undefined (JsObject outbox_node) = false /\
  (r <- reader_read (Present (JsArray [JsObject outbox_node])) (Index 0) ;;
   reader_read r (Key "outbox"))
  = reader_read (Present (JsArray [JsObject outbox_node])) (Key "outbox").
Proof.
  split; [reflexivity|].
  apply (index_then_key (JsObject outbox_node) [] "outbox" eq_refl).
  apply Nat.le_0_l.
Defined.

(* ================================================================== *)
(** * Exceptions of the untyped calls *)
(* ================================================================== *)

(** X4.  On a Present Reader, [get] throws exactly when the fragment is
    [null] or [undefined], and then a [TypeError]; [getOrThrow] and
    [getOrElse] do as [get] does, whatever error or default they are
    given. *)
Theorem unwrap_throws_iff_nullish (v : JsValue) :
  (get (Present v) = Throw TypeError <-> is_nullish v = true) /\
  (forall e, get (Present v) = Throw e -> e = TypeError) /\
  (forall error defaultValue,
      getOrThrow (Present v) error = get (Present v) /\
      getOrElse (Present v) defaultValue = get (Present v)).
Proof.
  assert (G : getValue v = Throw TypeError /\ is_nullish v = true \/
              (exists u, getValue v = Normal u) /\ is_nullish v = false).
  { destruct v as [| |b|n|z|s|xs|scope];
      try (left; split; reflexivity);
      try (right; split; [eexists|]; reflexivity).
    - right. split; [|reflexivity]. unfold getValue.
      cbn [typeof]. change (includes _ "object") with false. cbv iota.
      destruct (length_is_1 (JsArray xs)); eexists; reflexivity.
    - right. split; [|reflexivity]. unfold getValue.
      cbn [typeof]. change (includes _ "object") with false. cbv iota.
      destruct (length_is_1 (JsObject scope)); [eexists; reflexivity|].
      unfold get_member. cbn [is_nullish bind].
      destruct (is_nullish (member (JsObject scope) "@value"));
        eexists; reflexivity. }
  cbn [get getOrThrow getOrElse].
  destruct G as [[T N]|[[u T] N]]; rewrite T, N.
  - repeat split; congruence.
  - repeat split; congruence.
Qed.

(** X5.  [strict] keeps the value and drops the error: on a [Nothing]
    it builds a Present Reader over [undefined], from which a further
    [read] reports ["Not an object"] or ["Not an array"] in place of the
    error that was stored, and [getOrThrow] throws a [TypeError]. *)
Theorem strict_forgets_diagnostic (e : JsError) :
  (forall r, value (strict r) = value r /\ error (strict r) = None /\
             strict (strict r) = strict r) /\
  (forall m,
      reader_read (strict (Nothing e)) m
      = Normal (Nothing (Error (match m with
                                | Key _ => "Not an object"
                                | Index _ => "Not an array"
                                end)))) /\
  (forall error, getOrThrow (strict (Nothing e)) error = Throw TypeError).
Proof.
  split; [|split].
  - intros [v|e']; repeat split.
  - intros [k|i]; reflexivity.
  - reflexivity.
Qed.

(* ================================================================== *)
(** * Reads by key: exceptions, diagnostics, provenance *)
(* ================================================================== *)

(** A string key is resolved against the target of the descent. *)
Lemma read_by_key_target (v : JsValue) (key : option string) :
  read v None key
  = match key_target v with
    | None => Normal (Nothing (Error "Not an object"))
    | Some n => read_object n None key
    end.
Proof.
  induction v as [| |b|n|z|s|xs IH|scope _] using JsValue_nested_ind;
    try reflexivity.
  cbn [read key_target]. destruct (Nat.ltb 2 (List.length xs)); [reflexivity|].
  destruct xs as [|x xs]; [reflexivity|]. now inversion IH.
Qed.

Lemma key_target_not_array (v n : JsValue) :
  key_target v = Some n -> forall xs, n <> JsArray xs.
Proof.
  induction v as [| |b|m|z|s|xs IH|scope _] using JsValue_nested_ind;
    cbn [key_target]; try (intros [= <-]; discriminate).
  destruct (Nat.ltb 2 (List.length xs)); [discriminate|].
  destruct xs as [|x xs]; [intros [= <-]; discriminate|].
  inversion IH; subst. assumption.
Qed.

Lemma extractType_throws_TypeError (v : JsValue) (e : JsError) :
  extractType v = Throw e -> e = TypeError.
Proof.
  induction v as [| |b|n|z|s|xs IH|scope _] using JsValue_nested_ind;
    cbn; try congruence.
  - destruct (Nat.eqb _ 2); [discriminate|].
    destruct (Nat.eqb _ 1); discriminate.
  - destruct xs as [|x xs]; cbn; [congruence|]. now inversion IH.
Qed.

Lemma readAsPreDefinedKey_throws_TypeError
      (scope : Scope) (k : string) (e : JsError) :
  readAsPreDefinedKey scope k = Throw e -> e = TypeError.
Proof.
  unfold readAsPreDefinedKey, readType.
  destruct (includes ["type"; "@type"] k); cbn [bind snd].
  - destruct (negb (is_undefined (prop scope "@type"))).
    + destruct (extractType (prop scope "@type")) eqn:X; cbn.
      * discriminate.
      * intros [= <-]. exact (extractType_throws_TypeError _ _ X).
    + destruct (find (hash_segment_is "type") (keys scope)) as [key|]; cbn.
      * destruct (extractType (prop scope key)) eqn:X; cbn.
        -- discriminate.
        -- intros [= <-]. exact (extractType_throws_TypeError _ _ X).
      * destruct (snd _); [discriminate|]. destruct (snd _); discriminate.
  - destruct (snd _); [discriminate|]. destruct (snd _); discriminate.
Qed.

Lemma readAsPreDefinedKey_returns (scope : Scope) (k : string) :
  includes ["type"; "@type"] k = false ->
  exists r, readAsPreDefinedKey scope k = Normal r.
Proof.
  intros T. unfold readAsPreDefinedKey. rewrite T. cbn [bind snd].
  destruct (snd _); [eexists; reflexivity|].
  destruct (snd _); eexists; reflexivity.
Qed.

Lemma readAsObject_throws_TypeError
      (scope : Scope) (k : string) (e : JsError) :
  readAsObject scope k = Throw e -> e = TypeError.
Proof.
  unfold readAsObject.
  destruct (readAsPreDefinedKey scope k) as [[val [|]]|e'] eqn:P; cbn.
  - discriminate.
  - destruct (getFullKey scope k) as [fk|]; [|discriminate].
    destruct (String.eqb k "type"); [|discriminate].
    destruct (extractType (prop scope fk)) eqn:X; cbn; [discriminate|].
    intros [= <-]. exact (extractType_throws_TypeError _ _ X).
  - intros [= <-]. exact (readAsPreDefinedKey_throws_TypeError _ _ _ P).
Qed.

Lemma readAsObject_returns (scope : Scope) (k : string) :
  includes ["type"; "@type"] k = false ->
  exists r, readAsObject scope k = Normal r.
Proof.
  intros T. unfold readAsObject.
  destruct (readAsPreDefinedKey_returns scope k T) as [[val [|]] ->]; cbn.
  - eexists; reflexivity.
  - assert (K : String.eqb k "type" = false).
    { unfold includes in T. simpl in T. now apply orb_false_elim in T. }
    rewrite K. destruct (getFullKey scope k); eexists; reflexivity.
Qed.

(** X6.  [read(k)] throws nothing but a [TypeError].  It throws one
    whenever the node that the key is resolved against (the fragment,
    or what its leading sequences of one or two elements wrap) is
    [null]; and for a key other than the type that is the only case. *)
Theorem key_read_throws_iff_null (v : JsValue) (k : string) :
  (key_target v = Some JsNull ->
   reader_read (Present v) (Key k) = Throw TypeError) /\
  (forall e, reader_read (Present v) (Key k) = Throw e -> e = TypeError) /\
  (includes ["type"; "@type"] k = false ->
   forall e,
     reader_read (Present v) (Key k) = Throw e ->
     key_target v = Some JsNull).
Proof.
  cbn [reader_read]. rewrite read_by_key_target.
  destruct (key_target v) as [n|] eqn:T.
  2: { repeat split; discriminate. }
  pose proof (key_target_not_array _ _ T) as A.
  destruct n as [| |b|m|z|s|xs|scope];
    try (repeat split; try discriminate; reflexivity).
  - split; [reflexivity|]. split; [cbn; congruence|reflexivity].
  - now destruct (A xs).
  - cbn [read_object typeof String.eqb Ascii.eqb Bool.eqb negb].
    split; [discriminate|]. split.
    + intros e. apply readAsObject_throws_TypeError.
    + intros N e R.
      destruct (readAsObject_returns scope k N) as [r R']. congruence.
Qed.

Lemma key_read_throws_iff_null_witness :
  key_target (JsArray [JsNull]) = Some JsNull /\
  reader_read (Present (JsArray [JsNull])) (Key "name") = Throw TypeError.
Proof.
  split; [reflexivity|].
  exact (proj1 (key_read_throws_iff_null (JsArray [JsNull]) "name") eq_refl).
Defined.

(** X7.  A [Nothing] that [read] builds from a Present Reader carries
    one of two messages for an index, ["Not an array"] or
    ["Not found index: "] with the index as the runtime prints that
    number, and one of two for a key,
    ["Not an object"] or ["Not found key: "] with the key; never
    ["key or index is required"], and never a [TypeError]. *)
Theorem read_diagnostics (v : JsValue) (m : KeyOrIndex) (e : JsError) :
  reader_read (Present v) m = Normal (Nothing e) ->
  match m with
  | Index i =>
      e = Error "Not an array" \/
      e = Error ("Not found index: " ++ IntegerToString i)
  | Key k =>
      e = Error "Not an object" \/ e = Error ("Not found key: " ++ k)
  end.
Proof.
  destruct m as [k|i]; cbn [reader_read].
  - rewrite read_by_key_target.
    destruct (key_target v) as [n|] eqn:T; [|intros [= <-]; now left].
    destruct n as [| |b|m|z|s|xs|scope];
      try (cbn; intros [= <-]; now left); try (cbn; discriminate).
    cbn [read_object typeof String.eqb Ascii.eqb Bool.eqb negb].
    unfold readAsObject.
    destruct (readAsPreDefinedKey scope k) as [[val [|]]|e']; cbn;
      try discriminate.
    destruct (getFullKey scope k) as [fk|]; [|intros [= <-]; now right].
    destruct (String.eqb k "type"); [|discriminate].
    destruct (extractType (prop scope fk)); discriminate.
  - destruct v as [| |b|n|z|s|xs|scope];
      try (cbn; intros [= <-]; now left).
    cbn. unfold readAsArray.
    destruct (negb (is_undefined (element xs i))); [discriminate|].
    intros [= <-]. now right.
Qed.

Lemma read_diagnostics_witness :
  reader_read (Present (JsObject outbox_node)) (Key "uid")
  = Normal (Nothing (Error "Not found key: uid")) /\
  (Error "Not found key: uid" = Error "Not an object" \/
   Error "Not found key: uid" = Error ("Not found key: " ++ "uid")).
Proof.
  split; [reflexivity|].
  exact (read_diagnostics (JsObject outbox_node) (Key "uid")
                          (Error "Not found key: uid") eq_refl).
Defined.

Lemma lookup_in (scope : Scope) (k : string) (x : JsValue) :
  lookup k scope = Some x -> In (k, x) scope.
Proof.
  induction scope as [|[k' v'] rest IH]; simpl; [discriminate|].
  destruct (String.eqb_spec k k') as [->|N].
  - intros [= ->]. now left.
  - intros L. right. now apply IH.
Qed.

Lemma prop_defined_in (scope : Scope) (k : string) :
  is_undefined (prop scope k) = false -> In (k, prop scope k) scope.
Proof.
  unfold prop. destruct (lookup k scope) as [x|] eqn:L; [|discriminate].
  intros _. exact (lookup_in _ _ _ L).
Qed.

Lemma prop_found_in (scope : Scope) (f : string -> bool) (k : string) :
  find f (keys scope) = Some k -> In (k, prop scope k) scope.
Proof.
  intros F. apply find_some in F. destruct F as [I _].
  destruct (lookup_key _ _ I) as [x L].
  unfold prop. rewrite L. exact (lookup_in _ _ _ L).
Qed.

Lemma getFullKey_in (scope : Scope) (k fk : string) :
  getFullKey scope k = Some fk -> In (fk, prop scope fk) scope.
Proof.
  unfold getFullKey.
  destruct (find (hash_segment_is k) (keys scope)) as [h|] eqn:F.
  - intros [= <-]. exact (prop_found_in _ _ _ F).
  - apply prop_found_in.
Qed.

Lemma readId_in (scope : Scope) (v : JsValue) :
  readId scope = (v, true) -> exists fk, In (fk, v) scope.
Proof.
  unfold readId.
  destruct (is_undefined (prop scope "@id")) eqn:U; cbn [negb].
  - destruct (find (hash_segment_is "id") (keys scope)) as [k|] eqn:F;
      [|discriminate].
    intros [= <-]. exists k. exact (prop_found_in _ _ _ F).
  - intros [= <-]. exists "@id". exact (prop_defined_in _ _ U).
Qed.

Lemma readValue_in (scope : Scope) (v : JsValue) :
  readValue scope = (v, true) -> exists fk, In (fk, v) scope.
Proof.
  unfold readValue.
  destruct (is_undefined (prop scope "@value")) eqn:U; cbn [negb].
  - destruct (find (hash_segment_is "value") (keys scope)) as [k|] eqn:F;
      [|discriminate].
    intros [= <-]. exists k. exact (prop_found_in _ _ _ F).
  - intros [= <-]. exists "@value". exact (prop_defined_in _ _ U).
Qed.

Lemma readType_in (scope : Scope) (t : JsValue) :
  readType scope = Normal (t, true) ->
  exists fk x, In (fk, x) scope /\ extractType x = Normal t.
Proof.
  unfold readType.
  destruct (is_undefined (prop scope "@type")) eqn:U; cbn [negb].
  - destruct (find (hash_segment_is "type") (keys scope)) as [k|] eqn:F;
      [|discriminate].
    destruct (extractType (prop scope k)) as [t'|] eqn:X; cbn; [|discriminate].
    intros [= <-]. exists k, (prop scope k).
    split; [exact (prop_found_in _ _ _ F)|exact X].
  - destruct (extractType (prop scope "@type")) as [t'|] eqn:X; cbn;
      [|discriminate].
    intros [= <-]. exists "@type", (prop scope "@type").
    split; [exact (prop_defined_in _ _ U)|exact X].
Qed.

(** What a key other than the type reads is the value of a field. *)
Lemma readAsObject_field (scope : Scope) (k : string) (v : JsValue) :
  includes ["type"; "@type"] k = false ->
  readAsObject scope k = Normal (Present v) ->
  exists fk, In (fk, v) scope.
Proof.
  intros T. unfold readAsObject, readAsPreDefinedKey. rewrite T.
  cbn [bind snd].
  assert (K : String.eqb k "type" = false).
  { unfold includes in T. simpl in T. now apply orb_false_elim in T. }
  destruct (if includes ["id"; "@id"] k then readId scope
            else (JsString "", false)) as [i [|]] eqn:I; cbn [snd bind].
  { destruct (includes ["id"; "@id"] k); [|discriminate I].
    intros [= <-]. exact (readId_in _ _ I). }
  destruct (if includes ["value"; "@value"] k then readValue scope
            else (JsString "", false)) as [w [|]] eqn:W; cbn [snd bind].
  { destruct (includes ["value"; "@value"] k); [|discriminate W].
    intros [= <-]. exact (readValue_in _ _ W). }
  rewrite K. destruct (getFullKey scope k) as [fk|] eqn:G; [|discriminate].
  intros [= <-]. exists fk. exact (getFullKey_in _ _ _ G).
Qed.

(** What the type key reads is the value of a field, as it is or
    reduced by [extractType]. *)
Lemma readAsObject_type_field (scope : Scope) (k : string) (v : JsValue) :
  includes ["type"; "@type"] k = true ->
  readAsObject scope k = Normal (Present v) ->
  exists fk x, In (fk, x) scope /\ (v = x \/ extractType x = Normal v).
Proof.
  intros T.
  assert (K : k = "type" \/ k = "@type").
  { unfold includes in T. simpl in T.
    rewrite orb_false_r in T. apply orb_true_iff in T.
    now rewrite !String.eqb_eq in T. }
  unfold readAsObject, readAsPreDefinedKey. rewrite T.
  destruct (readType scope) as [[t [|]]|e] eqn:RT; cbn [bind snd];
    [| |discriminate].
  - intros [= <-]. destruct (readType_in _ _ RT) as (fk & x & I & X).
    exists fk, x. split; [exact I|now right].
  - replace (includes ["id"; "@id"] k) with false
      by (destruct K as [->| ->]; reflexivity).
    replace (includes ["value"; "@value"] k) with false
      by (destruct K as [->| ->]; reflexivity).
    cbn [snd bind].
    destruct (getFullKey scope k) as [fk|] eqn:G; [|discriminate].
    pose proof (getFullKey_in _ _ _ G) as I.
    destruct (String.eqb k "type").
    + destruct (extractType (prop scope fk)) as [t'|] eqn:X; cbn;
        [|discriminate].
      intros [= <-]. exists fk, (prop scope fk). split; [exact I|now right].
    + intros [= <-]. exists fk, (prop scope fk). split; [exact I|now left].
Qed.

Lemma read_provenance (jsonld : JsValue) :
  forall index key v,
    read jsonld index key = Normal (Present v) ->
    exists t,
      subvalue t jsonld /\
      (v = t \/
       match key with
       | Some k => includes ["type"; "@type"] k = true
       | None => False
       end /\ extractType t = Normal v).
Proof.
  induction jsonld as [| |b|n|z|s|xs IH|scope _] using JsValue_nested_ind;
    intros index key v;
    try (destruct index, key; simpl; discriminate).
  - destruct index as [i|]; cbn [read].
    + unfold readAsArray.
      destruct (is_undefined (element xs i)) eqn:U; cbn [negb];
        [discriminate|].
      intros [= <-]. exists (element xs i). split; [|now left].
      apply (sub_element _ (element xs i)); [|constructor].
      unfold element in *. destruct (i <? 0)%Z; [discriminate U|].
      destruct (nth_in_or_default (Z.to_nat i) xs JsUndefined) as [I|E];
        [exact I|]. rewrite E in U. discriminate U.
    + destruct (Nat.ltb 2 (List.length xs)); [discriminate|].
      destruct xs as [|x xs]; [destruct key; discriminate|].
      inversion IH as [|? ? Hx _]; subst. intros R.
      destruct (Hx _ _ _ R) as (t & S & C). exists t. split; [|exact C].
      apply (sub_element _ x); [now left|exact S].
  - destruct index as [i|]; cbn; [discriminate|].
    destruct key as [k|]; [|discriminate].
    intros R. destruct (includes ["type"; "@type"] k) eqn:T.
    + destruct (readAsObject_type_field _ _ _ T R) as (fk & x & I & C).
      exists x. split; [apply (sub_field _ fk x); [exact I|constructor]|].
      destruct C as [C|C]; [now left|right; now split].
    + destruct (readAsObject_field _ _ _ T R) as (fk & I).
      exists v. split; [apply (sub_field _ fk v); [exact I|constructor]|].
      now left.
Qed.



(* ================================================================== *)
(** * More on type extraction and on the reserved keys *)
(* ================================================================== *)

Lemma append_snoc (a b : string) (c : ascii) :
  ((a ++ String c EmptyString) ++ b)%string = glue a c b.
Proof.
  unfold glue. induction a as [|x a IH]; simpl; [reflexivity|].
  now rewrite IH.
Qed.

(** X9.  On a string [extractType] always returns, and what it returns
    is the end of the string: the string itself, or what is left once a
    prefix that ends with [#] or with [/] is dropped. *)
Theorem extractType_string_suffix (s : string) :
  exists p t,
    extractType (JsString s) = Normal (JsString t) /\
    s = (p ++ t)%string /\
    (empty_or_ends_with "#" p \/ empty_or_ends_with "/" p).
Proof.
  cbn [extractType extractType_scalar].
  destruct (Nat.eqb_spec (List.length (split "#" s)) 2) as [L|_].
  - destruct (split "#" s) as [|a [|b [|c l]]] eqn:H; try discriminate L.
    destruct (split_cons_inv _ _ _ _ H) as [_ [[C _]|[rest [-> R]]]];
      [discriminate C|].
    symmetry in R.
    destruct (split_cons_inv _ _ _ _ R) as [_ [[_ ->]|[rest' [_ C]]]].
    + exists (a ++ String "#" EmptyString)%string, b. cbn [nth].
      split; [reflexivity|]. split; [now rewrite append_snoc|].
      left. right. now exists a.
    + symmetry in C. now destruct (split_not_nil _ _ C).
  - destruct (last_split_is_last_segment "/" s) as [_ [E|[p E]]].
    + exists EmptyString, s. split; [|split; [reflexivity|left; now left]].
      destruct (Nat.eqb _ 1); [reflexivity|]. now rewrite <- E.
    + exists (p ++ String "/" EmptyString)%string,
             (last (split "/" s) EmptyString).
      split; [|split; [now rewrite append_snoc|right; right; now exists p]].
      destruct (Nat.eqb_spec (List.length (split "/" s)) 1) as [L|_];
        [|reflexivity].
      exfalso. rewrite split_length in L.
      rewrite E in L at 1. unfold glue in L. rewrite count_char_app in L.
      cbn in L. lia.
Qed.

Lemma extractType_first_leaf (v : JsValue) :
  extractType v = extractType_scalar (first_leaf v).
Proof.
  induction v as [| |b|n|z|s|xs IH|scope _] using JsValue_nested_ind;
    try reflexivity.
  destruct xs as [|x xs]; [reflexivity|]. cbn. now inversion IH.
Qed.

(** X10.  [extractType] follows first elements through sequences of
    any length and depth.  It throws, a [TypeError], exactly when that
    descent ends on something that is neither a string nor an object: a
    number, a boolean, [null], or the absent first element of an empty
    sequence.  On an object it returns the ['@value'] field, which is
    [undefined] when the object has none. *)
Theorem extractType_throws_iff (v : JsValue) :
  (extractType v = Throw TypeError <->
   (forall s, first_leaf v <> JsString s) /\
   (forall scope, first_leaf v <> JsObject scope)) /\
  (forall s, first_leaf v = JsString s ->
             extractType v = extractType (JsString s)) /\
  (forall scope, first_leaf v = JsObject scope ->
                 extractType v = Normal (prop scope "@value")).
Proof.
  rewrite extractType_first_leaf.
  split; [|split].
  - split.
    + intros T. split; intros x E; rewrite E in T; cbn in T;
        [|discriminate T].
      destruct (Nat.eqb _ 2); [discriminate T|].
      destruct (Nat.eqb _ 1); discriminate T.
    + intros [S O]. destruct (first_leaf v); try reflexivity.
      * now destruct (S s).
      * now destruct (O properties).
  - now intros s ->.
  - now intros scope ->.
Qed.

Lemma extractType_throws_iff_witness :
  first_leaf (JsArray [JsArray [JsString "https://example.org/ns#Person";
                                JsNull]])
  = JsString "https://example.org/ns#Person" /\
  extractType (JsArray [JsArray [JsString "https://example.org/ns#Person";
                                 JsNull]])
  = extractType (JsString "https://example.org/ns#Person").
Proof.
  split; [reflexivity|].
  exact (proj1 (proj2 (extractType_throws_iff
                         (JsArray [JsArray
                            [JsString "https://example.org/ns#Person";
                             JsNull]])))
               "https://example.org/ns#Person" eq_refl).
Defined.

(** X11.  The identifier and the literal value are looked up in a fixed
    order that the order of the keys does not change: the canonical
    field (['@id'], ['@value']) when it holds a value, else the first
    key whose second [#]-separated segment is [id] (or [value]); under
    either spelling the Reader is over that field, as it is. *)
Theorem reserved_key_priority (scope : Scope) (k : string) :
  (k = "id" \/ k = "@id" ->
   (holds scope "@id" ->
    reader_read (Present (JsObject scope)) (Key k)
    = Normal (Present (prop scope "@id"))) /\
   (forall fullKey,
       is_undefined (prop scope "@id") = true ->
       first_such (fun key => second_segment "#" key "id") (keys scope)
                  fullKey ->
       reader_read (Present (JsObject scope)) (Key k)
       = Normal (Present (prop scope fullKey)))) /\
  (k = "value" \/ k = "@value" ->
   (holds scope "@value" ->
    reader_read (Present (JsObject scope)) (Key k)
    = Normal (Present (prop scope "@value"))) /\
   (forall fullKey,
       is_undefined (prop scope "@value") = true ->
       first_such (fun key => second_segment "#" key "value") (keys scope)
                  fullKey ->
       reader_read (Present (JsObject scope)) (Key k)
       = Normal (Present (prop scope fullKey)))).
Proof.
  split; intros K.
  - assert (R : readAsObject scope k
                = Normal (if snd (readId scope)
                          then Present (fst (readId scope))
                          else match getFullKey scope k with
                               | Some fullKey => Present (prop scope fullKey)
                               | None => Nothing (Error ("Not found key: " ++ k))
                               end)).
    { unfold readAsObject, readAsPreDefinedKey.
      destruct K as [->| ->]; cbn [includes existsb String.eqb Ascii.eqb
        Bool.eqb orb andb bind snd];
        destruct (readId scope) as [i [|]]; cbn [snd fst bind];
        try reflexivity;
        destruct (getFullKey scope _); reflexivity. }
    cbn [reader_read read read_object typeof String.eqb Ascii.eqb Bool.eqb
         negb]. rewrite R. unfold readId, holds. split.
    + intros H. rewrite H. reflexivity.
    + intros fullKey U F. rewrite U. cbn [negb].
      apply (find_first_such _ _ (hash_segment_is_spec "id")) in F.
      rewrite F. reflexivity.
  - assert (R : readAsObject scope k
                = Normal (if snd (readValue scope)
                          then Present (fst (readValue scope))
                          else match getFullKey scope k with
                               | Some fullKey => Present (prop scope fullKey)
                               | None => Nothing (Error ("Not found key: " ++ k))
                               end)).
    { unfold readAsObject, readAsPreDefinedKey.
      destruct K as [->| ->]; cbn [includes existsb String.eqb Ascii.eqb
        Bool.eqb orb andb bind snd];
        destruct (readValue scope) as [i [|]]; cbn [snd fst bind];
        try reflexivity;
        destruct (getFullKey scope _); reflexivity. }
    cbn [reader_read read read_object typeof String.eqb Ascii.eqb Bool.eqb
         negb]. rewrite R. unfold readValue, holds. split.
    + intros H. rewrite H. reflexivity.
    + intros fullKey U F. rewrite U. cbn [negb].
      apply (find_first_such _ _ (hash_segment_is_spec "value")) in F.
      rewrite F. reflexivity.
Qed.

Lemma reserved_key_priority_witness :
  holds outbox_node "@id" /\
  reader_read (Present (JsObject outbox_node)) (Key "id")
  = Normal (Present (prop outbox_node "@id")).
Proof.
  split; [reflexivity|].
  exact (proj1 (proj1 (reserved_key_priority outbox_node "id")
                      (or_introl eq_refl))
               eq_refl).
Defined.

(* ================================================================== *)
(** * More on the typed extraction *)
(* ================================================================== *)

Lemma getValue_throws_TypeError (v : JsValue) (e : JsError) :
  getValue v = Throw e -> e = TypeError.
Proof.
  destruct v as [| |b|n|z|s|xs|scope]; try (cbn; congruence).
  - unfold getValue. cbn [typeof]. change (includes _ "object") with false.
    cbv iota. destruct (length_is_1 (JsArray xs)); discriminate.
  - unfold getValue. cbn [typeof]. change (includes _ "object") with false.
    cbv iota. destruct (length_is_1 (JsObject scope)); [discriminate|].
    unfold get_member. cbn [is_nullish bind].
    destruct (is_nullish (member (JsObject scope) "@value")); discriminate.
Qed.

Section MoreTypedExtraction.
Context {conv : NumberConversions}.

Lemma ToString_throws_TypeError (v : JsValue) :
  forall e, ToString v = Throw e -> e = TypeError.
Proof.
  induction v as [| |b|n|z|s|xs IH|scope _] using JsValue_nested_ind;
    intros e; cbn [ToString]; try discriminate.
  - match goal with |- ?J xs = Throw e -> _ => set (join := J) end.
    revert e. induction IH as [|x l Hx _ IHl]; intros e; [discriminate|].
    change (join (x :: l))
      with (s <- (if is_nullish x then Normal "" else ToString x) ;;
            match l with
            | [] => Normal s
            | _ => r <- join l ;; Normal (s ++ "," ++ r)%string
            end).
    destruct (if is_nullish x then Normal "" else ToString x)
      as [s|e'] eqn:S; cbn [bind].
    + destruct l as [|y l']; [discriminate|].
      destruct (join (y :: l')) as [r|e'] eqn:J; cbn [bind]; [discriminate|].
      intros [= <-]. now apply IHl.
    + intros [= <-]. destruct (is_nullish x); [discriminate S|].
      now apply Hx.
  - destruct (lookup "toString" scope); congruence.
Qed.

Lemma ToNumber_throws_TypeError (v : JsValue) (e : JsError) :
  ToNumber v = Throw e -> e = TypeError.
Proof.
  destruct v; cbn [ToNumber]; try discriminate.
  - destruct (ToString (JsArray elements)) eqn:T; cbn [bind]; [discriminate|].
    intros [= <-]. exact (ToString_throws_TypeError _ _ T).
  - destruct (ToString (JsObject properties)) eqn:T; cbn [bind];
      [discriminate|].
    intros [= <-]. exact (ToString_throws_TypeError _ _ T).
Qed.

(** X13.  A caller who supplies an error to a throwing call sees that
    error or a [TypeError] of the runtime, never a message of the
    reader: neither the error stored in a [Nothing] nor
    ["Not a string"], ["Not a number"] or ["Not a boolean"]. *)
Theorem supplied_error_replaces
        (this : JsonLDReader) (supplied e : JsError) :
  (getOrThrow this (Some supplied) = Throw e ->
   e = supplied \/ e = TypeError) /\
  (stringOrThrow this (Some supplied) = Throw e ->
   e = supplied \/ e = TypeError) /\
  (numberOrThrow this (Some supplied) = Throw e ->
   e = supplied \/ e = TypeError) /\
  (booleanOrThrow this (Some supplied) = Throw e ->
   e = supplied \/ e = TypeError).
Proof.
  destruct this as [v|stored];
    [|repeat split; cbn; intros [= <-]; now left].
  cbn [getOrThrow stringOrThrow numberOrThrow booleanOrThrow].
  destruct (getValue v) as [u|e'] eqn:G; cbn [bind].
  2: { repeat split; intros [= <-]; right;
       exact (getValue_throws_TypeError _ _ G). }
  split; [discriminate|]. split; [|split].
  - destruct (includes _ (typeof u)) eqn:P.
    + intros T. right. exact (ToString_throws_TypeError _ _ T).
    + cbn. intros [= <-]. now left.
  - destruct u; try (now intros [= <-]; left); try discriminate;
      cbn [ToNumber bind];
      try (destruct (is_nan _); [intros [= <-]; now left|discriminate]).
    + destruct (ToString (JsArray elements)) eqn:T; cbn [bind].
      * destruct (is_nan _); [intros [= <-]; now left|discriminate].
      * intros [= <-]. right. exact (ToString_throws_TypeError _ _ T).
    + destruct (ToString (JsObject properties)) eqn:T; cbn [bind].
      * destruct (is_nan _); [intros [= <-]; now left|discriminate].
      * intros [= <-]. right. exact (ToString_throws_TypeError _ _ T).
  - destruct u; try discriminate;
      try (cbn; intros [= <-]; now left).
    + cbn [strict_equals orb].
      destruct (PrimFloat.eqb n 0 || PrimFloat.eqb n 1);
        [discriminate|cbn; intros [= <-]; now left].
    + cbn [strict_equals].
      destruct (String.eqb s "true" || String.eqb s "false"
                || String.eqb s "0" || String.eqb s "1");
        [discriminate|cbn; intros [= <-]; now left].
Qed.

(** X14.  [stringOrThrow] returns exactly when the unwrapped value is a
    string, a number, a big integer or a boolean: a string as it is, a
    boolean as ["true"] or ["false"], a big integer in decimal, a number
    as the runtime prints it.  On any other unwrapped value (an object,
    a sequence, [null], [undefined]) it throws the caller's error or
    else ["Not a string"]. *)
Theorem stringOrThrow_spec (v u : JsValue) (error : option JsError) :
  getValue v = Normal u ->
  (is_primitive u = false ->
   stringOrThrow (Present v) error
   = Throw (or_error error (Error "Not a string"))) /\
  (forall s, u = JsString s -> stringOrThrow (Present v) error = Normal s) /\
  (forall b : bool,
      u = JsBoolean b ->
      stringOrThrow (Present v) error
      = Normal (if b then "true" else "false")) /\
  (forall z, u = JsBigInt z ->
             stringOrThrow (Present v) error = Normal (Z_to_string z)) /\
  (forall n, u = JsNumber n ->
             stringOrThrow (Present v) error = Normal (NumberToString n)).
Proof.
  intros G. unfold stringOrThrow. rewrite G. cbn [bind].
  split; [|repeat split; intros ? ->; reflexivity].
  destruct u; try discriminate; reflexivity.
Qed.

(** X15.  [numberOrThrow] returns a fragment that unwraps to a number
    as it is, [NaN] included; any other unwrapped value whose
    conversion is [NaN] is refused with the caller's error or else
    ["Not a number"].  So the call returns [NaN] only when the
    unwrapped value is the number [NaN]. *)
Theorem numberOrThrow_nan (v : JsValue) (error : option JsError) :
  (forall n, getValue v = Normal (JsNumber n) ->
             numberOrThrow (Present v) error = Normal n) /\
  (forall u n,
      getValue v = Normal u -> (forall m, u <> JsNumber m) ->
      ToNumber u = Normal n -> is_nan n = true ->
      numberOrThrow (Present v) error
      = Throw (or_error error (Error "Not a number"))) /\
  (forall n,
      numberOrThrow (Present v) error = Normal n -> is_nan n = true ->
      getValue v = Normal (JsNumber n)).
Proof.
  unfold numberOrThrow. split; [|split].
  - intros n ->. reflexivity.
  - intros u n G N T X. rewrite G. cbn [bind].
    destruct u; try (rewrite T; cbn [bind]; now rewrite X).
    now destruct (N n0).
  - intros n. destruct (getValue v) as [u|]; cbn [bind]; [|discriminate].
    destruct u; try (now intros [= ->]);
      (destruct (ToNumber _) as [n'|]; cbn [bind]; [|discriminate];
       destruct (is_nan n') eqn:X; [discriminate|];
       intros [= <-]; congruence).
Qed.

End MoreTypedExtraction.

Lemma stringOrThrow_spec_witness :
  getValue (JsArray [JsObject [("@value", JsBoolean false)]])
  = Normal (JsBoolean false) /\
  stringOrThrow (conv := decimal_integers)
                (Present (JsArray [JsObject [("@value", JsBoolean false)]]))
                None
  = Normal "false".
Proof.
  split; [reflexivity|].
  exact (proj1 (proj2 (proj2 (stringOrThrow_spec
                                (conv := decimal_integers)
                                (JsArray [JsObject
                                   [("@value", JsBoolean false)]])
                                (JsBoolean false) None eq_refl)))
               false eq_refl).
Defined.

Lemma supplied_error_replaces_witness :
  getOrThrow (Nothing (Error "Not found key: uid")) (Some (Error "test"))
  = Throw (Error "test") /\
  (Error "test" = Error "test" \/ Error "test" = TypeError).
Proof.
  split; [reflexivity|].
  exact (proj1 (supplied_error_replaces
                  (conv := decimal_integers)
                  (Nothing (Error "Not found key: uid"))
                  (Error "test") (Error "test"))
               eq_refl).
Defined.

Lemma numberOrThrow_nan_witness :
  getValue (JsArray [JsObject [("@value", JsNumber nan)]])
  = Normal (JsNumber nan) /\
  numberOrThrow (conv := decimal_integers)
                (Present (JsArray [JsObject [("@value", JsNumber nan)]])) None
  = Normal nan.
Proof.
  split; [reflexivity|].
  exact (proj1 (numberOrThrow_nan
                  (conv := decimal_integers)
                  (JsArray [JsObject [("@value", JsNumber nan)]]) None)
               nan eq_refl).
Defined.

(* ================================================================== *)
(** * The exported getValue and the earlier extractType *)
(* ================================================================== *)

(** X16.  The exported [getValue] and the private one of the class
    agree on every value that is not [undefined] and not an object with
    a [length] field of its own equal to 1.  The exported one throws on
    [null] only: it returns [undefined] as it is, where the private one
    throws. *)
Theorem utils_getValue_agrees (v : JsValue) :
  (is_undefined v = false ->
   (forall scope, v = JsObject scope -> length_is_1 v = false) ->
   Utils.getValue v = getValue v) /\
  (forall e, Utils.getValue v = Throw e <-> v = JsNull /\ e = TypeError) /\
  (v = JsUndefined ->
   Utils.getValue v = Normal JsUndefined /\ getValue v = Throw TypeError).
Proof.
  split; [|split].
  - intros U L. destruct v as [| |b|n|z|s|xs|scope];
      try discriminate U; try reflexivity.
    unfold Utils.getValue, getValue. rewrite (L scope eq_refl).
    reflexivity.
  - intros e. split.
    + destruct v as [| |b|n|z|s|xs|scope]; try discriminate.
      * cbn. intros [= <-]. now split.
      * unfold Utils.getValue. cbn [typeof].
        change (includes _ "object") with false. cbv iota.
        destruct (Nat.eqb (List.length xs) 1); discriminate.
      * unfold Utils.getValue. cbn [typeof].
        change (includes _ "object") with false. cbv iota.
        unfold get_member. cbn [String.eqb Ascii.eqb Bool.eqb is_nullish bind].
        destruct (is_nullish (member (JsObject scope) "@value")); discriminate.
    + now intros [-> ->].
  - now intros ->.
Qed.

Lemma utils_getValue_agrees_witness :
  is_undefined (JsArray [JsObject [("@value", JsString "juunini")]]) = false /\
  Utils.getValue (JsArray [JsObject [("@value", JsString "juunini")]])
  = getValue (JsArray [JsObject [("@value", JsString "juunini")]]).
Proof.
  split; [reflexivity|].
  apply (proj1 (utils_getValue_agrees
                  (JsArray [JsObject [("@value", JsString "juunini")]]))
               eq_refl).
  intros scope H. discriminate H.
Defined.

Lemma earlier_extractType_first_leaf (v : JsValue) :
  Earlier.extractType v = Earlier.extractType_scalar (first_leaf v).
Proof.
  induction v as [| |b|n|z|s|xs IH|scope _] using JsValue_nested_ind;
    try reflexivity.
  destruct xs as [|x xs]; [reflexivity|]. cbn. now inversion IH.
Qed.

(** X17.  The current [extractType] extends that of the earlier
    version of the class: whatever the earlier one returns, the current
    one returns too.  They part on objects only, where the earlier one
    throws and the current one reads the ['@value'] field. *)
Theorem extractType_extends_earlier (v : JsValue) :
  (forall r, Earlier.extractType v = Normal r -> extractType v = Normal r) /\
  (forall scope,
      first_leaf v = JsObject scope ->
      Earlier.extractType v = Throw TypeError /\
      extractType v = Normal (prop scope "@value")) /\
  ((forall scope, first_leaf v <> JsObject scope) ->
   Earlier.extractType v = extractType v).
Proof.
  rewrite earlier_extractType_first_leaf, extractType_first_leaf.
  assert (S : forall s, Earlier.extractType_scalar (JsString s)
                        = extractType_scalar (JsString s)).
  { intros s. cbn. destruct (Nat.eqb _ 2); [reflexivity|].
    destruct (Nat.eqb_spec (List.length (split "/" s)) 1) as [L|_];
      [|reflexivity].
    rewrite split_length in L.
    rewrite split_no_sep by lia. reflexivity. }
  split; [|split].
  - intros r. destruct (first_leaf v); try discriminate.
    now rewrite S.
  - now intros scope ->.
  - intros N. destruct (first_leaf v); try reflexivity.
    + apply S.
    + now destruct (N properties).
Qed.

Lemma extractType_extends_earlier_witness :
  Earlier.extractType (JsArray [JsString "https://example.org/Person"])
  = Normal (JsString "Person") /\
  extractType (JsArray [JsString "https://example.org/Person"])
  = Normal (JsString "Person").
Proof.
  split; [reflexivity|].
  exact (proj1 (extractType_extends_earlier
                  (JsArray [JsString "https://example.org/Person"]))
               (JsString "Person") eq_refl).
Defined.

(* ================================================================== *)
(** * The type key, and chains of reads *)
(* ================================================================== *)

(** X18.  The type is looked up like the identifier: the canonical
    ['@type'] field when it holds a value, else the first key whose
    second [#]-separated segment is [type]; under either spelling the
    Reader is over what [extractType] makes of that field, and the
    call throws when [extractType] does. *)
Theorem type_key_resolution (scope : Scope) (k : string) :
  k = "type" \/ k = "@type" ->
  (holds scope "@type" ->
   reader_read (Present (JsObject scope)) (Key k)
   = (t <- extractType (prop scope "@type") ;; Normal (Present t))) /\
  (forall fullKey,
      is_undefined (prop scope "@type") = true ->
      first_such (fun key => second_segment "#" key "type") (keys scope)
                 fullKey ->
      reader_read (Present (JsObject scope)) (Key k)
      = (t <- extractType (prop scope fullKey) ;; Normal (Present t))).
Proof.
  intros K.
  assert (R : forall x,
             readType scope = (t <- extractType x ;; Normal (t, true)) ->
             readAsObject scope k = (t <- extractType x ;; Normal (Present t))).
  { intros x E. unfold readAsObject, readAsPreDefinedKey.
    replace (includes ["type"; "@type"] k) with true
      by (destruct K as [->| ->]; reflexivity).
    rewrite E. now destruct (extractType x). }
  cbn [reader_read read read_object typeof String.eqb Ascii.eqb Bool.eqb negb].
  unfold holds. split.
  - intros H. apply R. unfold readType. now rewrite H.
  - intros fullKey U F. apply R. unfold readType. rewrite U. cbn [negb].
    apply (find_first_such _ _ (hash_segment_is_spec "type")) in F.
    now rewrite F.
Qed.

Lemma type_key_resolution_witness :
  is_undefined
    (prop [("https://www.w3.org/ns/activitystreams#type",
            JsArray [JsObject [("@value", JsString "Person")]])] "@type")
  = true /\
  reader_read
    (Present (JsObject [("https://www.w3.org/ns/activitystreams#type",
                         JsArray [JsObject [("@value", JsString "Person")]])]))
    (Key "type")
  = Normal (Present (JsString "Person")).
Proof.
  split; [reflexivity|].
  apply (proj2 (type_key_resolution
                  [("https://www.w3.org/ns/activitystreams#type",
                    JsArray [JsObject [("@value", JsString "Person")]])]
                  "type" (or_introl eq_refl))
               "https://www.w3.org/ns/activitystreams#type" eq_refl).
  exists [], []. repeat split; [|constructor].
  apply second_segment_spec. reflexivity.
Defined.

Lemma subvalue_plain (t v : JsValue) :
  subvalue t v -> is_plain v = true -> is_plain t = true.
Proof.
  induction 1 as [|x xs I _ IH|k x scope I _ IH]; intros P.
  - exact P.
  - apply IH. cbn [is_plain] in P. rewrite forallb_forall in P. now apply P.
  - apply IH. cbn [is_plain] in P. rewrite forallb_forall in P.
    exact (P _ I).
Qed.

Lemma key_target_plain (v : JsValue) :
  is_plain v = true -> key_target v <> Some JsNull.
Proof.
  induction v as [| |b|n|z|s|xs IH|scope _] using JsValue_nested_ind;
    cbn [key_target]; try discriminate.
  intros P. destruct (Nat.ltb 2 (List.length xs)); [discriminate|].
  destruct xs as [|x xs]; [discriminate|].
  inversion IH as [|? ? Hx _]; subst. apply Hx.
  cbn [is_plain forallb] in P. now apply andb_prop in P.
Qed.

Lemma key_read_returns (v : JsValue) (k : string) :
  includes ["type"; "@type"] k = false ->
  key_target v <> Some JsNull ->
  exists r, read v None (Some k) = Normal r.
Proof.
  intros T N. rewrite read_by_key_target.
  destruct (key_target v) as [n|] eqn:E; [|eexists; reflexivity].
  destruct n as [| |b|m|z|s|xs|scope]; try (eexists; reflexivity).
  - now destruct N.
  - now destruct (key_target_not_array _ _ E xs).
  - cbn [read_object typeof String.eqb Ascii.eqb Bool.eqb negb].
    exact (readAsObject_returns scope k T).
Qed.

Lemma getValue_returns (v : JsValue) :
  is_nullish v = false -> exists u, getValue v = Normal u.
Proof.
  intros N. destruct (getValue v) as [u|e] eqn:G; [now exists u|].
  exfalso. destruct v as [| |b|n|z|s|xs|scope]; try discriminate N;
    try discriminate G.
  - unfold getValue in G. cbn [typeof] in G.
    change (includes _ "object") with false in G. cbv iota in G.
    destruct (length_is_1 (JsArray xs)); discriminate G.
  - unfold getValue in G. cbn [typeof] in G.
    change (includes _ "object") with false in G. cbv iota in G.
    destruct (length_is_1 (JsObject scope)); [discriminate G|].
    unfold get_member in G. cbn [is_nullish bind] in G.
    destruct (is_nullish (member (JsObject scope) "@value")); discriminate G.
Qed.

(** One step of a chain on plain data. *)
Lemma read_step_plain (v : JsValue) (m : KeyOrIndex) :
  is_plain v = true -> is_type_key m = false ->
  exists r,
    reader_read (Present v) m = Normal r /\
    forall v', r = Present v' -> is_plain v' = true.
Proof.
  intros P T.
  assert (R : exists r, reader_read (Present v) m = Normal r).
  { destruct m as [k|i].
    - exact (key_read_returns v k T (key_target_plain v P)).
    - cbn. destruct v; eexists; reflexivity. }
  destruct R as [r R]. exists r. split; [exact R|].
  intros v' ->. cbn [reader_read] in R.
  destruct (read_provenance v _ _ _ R) as (t & S & [->|[X _]]).
  - exact (subvalue_plain _ _ S P).
  - destruct m as [k|i]; cbn in X, T; [congruence|contradiction].
Qed.

(** X19.  On a document free of [null] and [undefined], a chain of
    reads of any length, by indexes and by keys other than the type,
    does not throw, whichever of its steps fail; and on the Reader it
    ends with, [get], [getOrThrow] on a Present Reader and [getOrElse]
    return. *)
Theorem read_path_never_throws (v : JsValue) (path : list KeyOrIndex) :
  is_plain v = true ->
  Forall (fun m => is_type_key m = false) path ->
  exists r,
    read_path (Present v) path = Normal r /\
    (exists u, get r = Normal u) /\
    (forall d, exists u, getOrElse r d = Normal u) /\
    (forall v' error, r = Present v' ->
                      exists u, getOrThrow r error = Normal u).
Proof.
  intros P F.
  assert (G : forall r,
             (forall v', r = Present v' -> is_plain v' = true) ->
             (exists u, get r = Normal u) /\
             (forall d, exists u, getOrElse r d = Normal u) /\
             (forall v' error, r = Present v' ->
                               exists u, getOrThrow r error = Normal u)).
  { intros [w|e] W.
    - assert (N : is_nullish w = false)
        by (specialize (W w eq_refl); now destruct w).
      destruct (getValue_returns w N) as [u U]. cbn. rewrite U.
      repeat split; intros; now exists u.
    - repeat split; cbn; try discriminate; intros; eexists; reflexivity. }
  assert (C : forall r0,
             (forall v', r0 = Present v' -> is_plain v' = true) ->
             exists r,
               read_path r0 path = Normal r /\
               (forall v', r = Present v' -> is_plain v' = true)).
  { induction F as [|m path T _ IH]; intros r0 W.
    - exists r0. now split.
    - destruct r0 as [w|e].
      + destruct (read_step_plain w m (W w eq_refl) T) as (r1 & R & W1).
        destruct (IH r1 W1) as (r & Q & Wr).
        exists r. split; [|exact Wr]. cbn [read_path]. rewrite R. exact Q.
      + destruct (IH (Nothing e)) as (r & Q & Wr); [discriminate|].
        exists r. now split. }
  destruct (C (Present v)) as (r & Q & W).
  { now intros v' [= <-]. }
  exists r. split; [exact Q|]. now apply G.
Qed.

Lemma read_path_never_throws_witness :
  is_plain (JsArray [JsObject outbox_node]) = true /\
  exists r,
    read_path (Present (JsArray [JsObject outbox_node]))
              [Key "outbox"; Index 0; Key "id"] = Normal r /\
    exists u, get r = Normal u.
Proof.
  split; [reflexivity|].
  destruct (read_path_never_throws
              (JsArray [JsObject outbox_node])
              [Key "outbox"; Index 0; Key "id"] eq_refl) as (r & Q & G & _).
  - repeat constructor.
  - exists r. now split.
Defined.

(* ================================================================== *)
(** * The invariant of the Readers, reads of the type included *)
(* ================================================================== *)








(** The index in the message is printed as the number it is. *)
Lemma index_message_examples :
  reader_read (Present (JsArray [])) (Index 3)
  = Normal (Nothing (Error "Not found index: 3")) /\
  reader_read (Present (JsArray [])) (Index (-1))
  = Normal (Nothing (Error "Not found index: -1")) /\
  reader_read (Present (JsArray [])) (Index (2 ^ 64))
  = Normal (Nothing (Error "Not found index: 18446744073709552000")) /\
  reader_read (Present (JsArray [])) (Index (10 ^ 21))
  = Normal (Nothing (Error "Not found index: 1e+21")) /\
  reader_read (Present (JsArray [])) (Index (2 ^ 70))
  = Normal (Nothing (Error "Not found index: 1.1805916207174113e+21")).
Proof. repeat split; vm_compute; reflexivity. Qed.
